(** * websocket_stream: connection establishment and lifecycle

    A shallow embedding of [src/websocket_stream.cpp] (libtorrent's
    WebSocket signalling transport) and the properties of its connect /
    close / read / write state machine.

    The object is a record of its data members; every member function is a
    computation in a small monad that threads the object, may throw, and
    accumulates the ordered list of operations it hands to its collaborators
    (the io_context, the resolver, Boost.Asio, the TLS layer, Boost.Beast). *)

From Stdlib Require Import ZArith List Bool String Lia.
Import ListNotations.

Local Open Scope Z_scope.

(** ** Error codes *)

Module Error.

(** The error categories that occur in this translation unit. *)
Inductive error_category : Type :=
| system_category      (* boost::asio::error basic errors *)
| netdb_category       (* resolver failures *)
| ssl_category         (* error::get_ssl_category() *)
| websocket_category   (* boost::beast::websocket::error *)
| http_category        (* handshake failures of the upgrade exchange *)
| libtorrent_category. (* parse_url_components failures *)

(** [boost::system::error_code]: an integer and a category. *)
Record error_code : Type := mk_error { ec_value : Z; ec_category : error_category }.

(** [error_code{}] *)
Definition success : error_code := mk_error 0 system_category.

(** [if (ec)]: contextual conversion to bool. *)
Definition failed (ec : error_code) : bool := negb (ec_value ec =? 0).

Definition category_eqb (a b : error_category) : bool :=
  match a, b with
  | system_category, system_category
  | netdb_category, netdb_category
  | ssl_category, ssl_category
  | websocket_category, websocket_category
  | http_category, http_category
  | libtorrent_category, libtorrent_category => true
  | _, _ => false
  end.

(** [ec == e]: same value and same category. *)
Definition eqb (a b : error_code) : bool :=
  (ec_value a =? ec_value b) && category_eqb (ec_category a) (ec_category b).

(** boost::asio::error::basic_errors (errno values of the Linux build). *)
Definition no_protocol_option : error_code := mk_error 92 system_category.  (* ENOPROTOOPT *)
Definition already_connected  : error_code := mk_error 106 system_category. (* EISCONN *)
Definition already_started    : error_code := mk_error 114 system_category. (* EALREADY *)
Definition operation_aborted  : error_code := mk_error 125 system_category. (* ECANCELED *)

(** boost::beast::websocket::error::closed *)
Definition closed : error_code := mk_error 1 websocket_category.

(** [static_cast<int>(x)] of an [unsigned long]: the low 32 bits, signed. *)
Definition to_int (x : Z) : Z := (x + 2 ^ 31) mod 2 ^ 32 - 2 ^ 31.

(** conversion of an [int] to [std::uint16_t] *)
Definition to_uint16 (x : Z) : Z := x mod 2 ^ 16.

End Error.
Import Error.

(** ** Data members *)

(** An IP address as the resolver returns it. *)
Inductive address : Type :=
| address_v4 (a : N)
| address_v6 (a : N).

(** [tcp::endpoint] *)
Record endpoint : Type := mk_endpoint { ep_address : address; ep_port : Z }.

(** [ssl::context] objects are referred to by identity. *)
Definition ssl_context : Type := nat.

(** [m_stream]: [std::variant<stream_type, ssl_stream_type>]. *)
Inductive stream_variant : Type :=
| stream_type
| ssl_stream_type (ctx : ssl_context).

Definition holds_ssl_stream_type (v : stream_variant) : bool :=
  match v with ssl_stream_type _ => true | stream_type => false end.

(** Completion handlers supplied by the caller are opaque callbacks,
    referred to by identity. *)
Definition handler : Type := nat.

(** [close_reason_t] *)
Inductive close_reason_t : Type := close_reason_none.

Record websocket_stream : Type := mk_websocket_stream {
  m_ssl_context : option ssl_context;   (* ssl::context*, may be null *)
  m_stream : stream_variant;
  m_open : bool;
  m_connecting : bool;
  m_url : string;
  m_hostname : string;
  m_port : Z;                           (* std::uint16_t *)
  m_target : string;
  m_endpoints : list endpoint;
  m_user_agent : string;
  m_connect_handler : handler
}.

Definition set_stream v (s : websocket_stream) : websocket_stream :=
  mk_websocket_stream (m_ssl_context s) v (m_open s) (m_connecting s) (m_url s)
    (m_hostname s) (m_port s) (m_target s) (m_endpoints s) (m_user_agent s)
    (m_connect_handler s).
Definition set_open b (s : websocket_stream) : websocket_stream :=
  mk_websocket_stream (m_ssl_context s) (m_stream s) b (m_connecting s) (m_url s)
    (m_hostname s) (m_port s) (m_target s) (m_endpoints s) (m_user_agent s)
    (m_connect_handler s).
Definition set_connecting b (s : websocket_stream) : websocket_stream :=
  mk_websocket_stream (m_ssl_context s) (m_stream s) (m_open s) b (m_url s)
    (m_hostname s) (m_port s) (m_target s) (m_endpoints s) (m_user_agent s)
    (m_connect_handler s).
Definition set_url u (s : websocket_stream) : websocket_stream :=
  mk_websocket_stream (m_ssl_context s) (m_stream s) (m_open s) (m_connecting s) u
    (m_hostname s) (m_port s) (m_target s) (m_endpoints s) (m_user_agent s)
    (m_connect_handler s).
Definition set_hostname h (s : websocket_stream) : websocket_stream :=
  mk_websocket_stream (m_ssl_context s) (m_stream s) (m_open s) (m_connecting s) (m_url s)
    h (m_port s) (m_target s) (m_endpoints s) (m_user_agent s)
    (m_connect_handler s).
Definition set_port p (s : websocket_stream) : websocket_stream :=
  mk_websocket_stream (m_ssl_context s) (m_stream s) (m_open s) (m_connecting s) (m_url s)
    (m_hostname s) p (m_target s) (m_endpoints s) (m_user_agent s)
    (m_connect_handler s).
Definition set_target t (s : websocket_stream) : websocket_stream :=
  mk_websocket_stream (m_ssl_context s) (m_stream s) (m_open s) (m_connecting s) (m_url s)
    (m_hostname s) (m_port s) t (m_endpoints s) (m_user_agent s)
    (m_connect_handler s).
Definition set_endpoints e (s : websocket_stream) : websocket_stream :=
  mk_websocket_stream (m_ssl_context s) (m_stream s) (m_open s) (m_connecting s) (m_url s)
    (m_hostname s) (m_port s) (m_target s) e (m_user_agent s)
    (m_connect_handler s).
Definition set_user_agent_field a (s : websocket_stream) : websocket_stream :=
  mk_websocket_stream (m_ssl_context s) (m_stream s) (m_open s) (m_connecting s) (m_url s)
    (m_hostname s) (m_port s) (m_target s) (m_endpoints s) a
    (m_connect_handler s).


(** ** Operations handed to the collaborators *)

(** A function object bound to its arguments and posted to the io_context:
    it runs when the event loop reaches it. *)
Inductive task : Type :=
| bind_connect_handler (h : handler) (ec : error_code)
| bind_read_handler (h : handler) (ec : error_code) (bytes_read : N)
| bind_write_handler (h : handler) (ec : error_code) (bytes_written : N).

Inductive action : Type :=
| post (t : task)
    (* post(m_io_service, ...) *)
| resolver_async_resolve (hostname : string)
    (* m_resolver.async_resolve; completes in on_resolve *)
| asio_async_connect (range : list endpoint)
    (* boost::asio::async_connect over an iterator range, listed in
       iteration order; completes in on_tcp_connect *)
| ssl_set_host_name (hostname : string)
    (* ssl::set_host_name on the TLS handle *)
| ssl_async_handshake
    (* client handshake of the TLS layer; completes in on_ssl_handshake *)
| ws_async_handshake (host target : string) (user_agent : option string)
    (* HTTP upgrade; the decorator sets the user-agent field when present;
       completes in on_handshake *)
| ws_async_close (on : stream_variant).
    (* close frame with close_code::none; completes in on_close *)

(** ** The monad of member functions *)

Inductive exn : Type :=
| bad_variant_access   (* std::get on the wrong alternative *)
| bad_weak_ptr.        (* shared_from_this() once the owner has expired *)

Inductive outcome (A : Type) : Type :=
| returned (a : A)
| thrown (e : exn).
Arguments returned {A} a.
Arguments thrown {A} e.

Definition M (A : Type) : Type :=
  websocket_stream -> outcome A * websocket_stream * list action.

Definition ret {A} (a : A) : M A := fun s => (returned a, s, []).

Definition bind {A B} (c : M A) (k : A -> M B) : M B :=
  fun s =>
    match c s with
    | (returned a, s1, out1) =>
        match k a s1 with
        | (r, s2, out2) => (r, s2, out1 ++ out2)
        end
    | (thrown e, s1, out1) => (thrown e, s1, out1)
    end.

Definition throw {A} (e : exn) : M A := fun s => (thrown e, s, []).
Definition read {A} (f : websocket_stream -> A) : M A := fun s => (returned (f s), s, []).
Definition write (f : websocket_stream -> websocket_stream) : M unit :=
  fun s => (returned tt, f s, []).
Definition emit (a : action) : M unit := fun s => (returned tt, s, [a]).

Declare Scope member_scope.
Delimit Scope member_scope with member.
Notation "x <- c ;; k" := (bind c (fun x => k))
  (at level 61, c at next level, right associativity) : member_scope.
Notation "c ;; k" := (bind c (fun _ => k))
  (at level 61, right associativity) : member_scope.
Local Open Scope member_scope.

(** The object after a call, and what the call issued. *)
Definition state_after {A} (c : M A) (s : websocket_stream) : websocket_stream :=
  snd (fst (c s)).
Definition issued {A} (c : M A) (s : websocket_stream) : list action :=
  snd (c s).
Definition result {A} (c : M A) (s : websocket_stream) : outcome A :=
  fst (fst (c s)).

(** ** The member functions *)

Section Members.

(** [parse_url_components(url, ec)] (parse_url.hpp): the tuple
    (protocol, auth, hostname, port, path) and the error it reports. *)
Variable parse_url_components :
  string -> (string * string * string * Z * string) * error_code.

(** What [ssl::set_host_name] reports for a host name, and the value
    [ERR_get_error()] then yields (an [unsigned long]). *)
Variable set_host_name : string -> error_code.
Variable ERR_get_error : Z.

(** [post(m_io_service, std::bind(m_connect_handler, ec))] *)
Definition post_connect_handler (ec : error_code) : M unit :=
  h <- read m_connect_handler ;;
  emit (post (bind_connect_handler h ec)).

Definition close : M unit :=
  open <- read m_open ;;
  connecting <- read m_connecting ;;
  if open || connecting then
    write (set_open false) ;;
    write (set_connecting false) ;;
    stream <- read m_stream ;;
    emit (ws_async_close stream)
  else ret tt.

Definition get_close_reason : M close_reason_t := ret close_reason_none.

Definition set_user_agent (user_agent : string) : M unit :=
  write (set_user_agent_field user_agent).

Definition do_resolve (hostname : string) (port : Z) : M unit :=
  write (set_hostname hostname) ;;
  write (set_port port) ;;
  host <- read m_hostname ;;
  emit (resolver_async_resolve host).

Definition do_connect (url : string) : M unit :=
  open <- read m_open ;;
  if open then post_connect_handler already_connected
  else
    connecting <- read m_connecting ;;
    if connecting then post_connect_handler already_started
    else
      write (set_url url) ;;
      stored <- read m_url ;;
      let '(protocol, _, hostname, port, target, ec) := parse_url_components stored in
      write (set_target target) ;;
      if failed ec then post_connect_handler ec
      else
        let start : M unit :=
          let port := if port <=? 0 then 443 else port in
          target <- read m_target ;;
          (if String.eqb target "" then write (set_target "/") else ret tt) ;;
          write (set_connecting true) ;;
          do_resolve hostname (to_uint16 port) in
        ctx <- read m_ssl_context ;;
        if String.eqb protocol "ws" then
          write (set_stream stream_type) ;; start
        else
          match String.eqb protocol "wss", ctx with
          | true, Some c => write (set_stream (ssl_stream_type c)) ;; start
          | _, _ => post_connect_handler no_protocol_option
          end.

(** [m_endpoints.rbegin()] to [m_endpoints.rend()], in iteration order. *)
Definition reverse_range (v : list endpoint) : list endpoint := rev v.

Definition do_tcp_connect (endpoints : list endpoint) : M unit :=
  write (set_endpoints endpoints) ;;
  stored <- read m_endpoints ;;
  emit (asio_async_connect (reverse_range stored)).

(** The loop [for (addr : addresses) endpoints.emplace_back(addr, m_port)]. *)
Definition emplace_endpoints (port : Z) (addresses : list address) : list endpoint :=
  fold_left (fun endpoints addr => endpoints ++ [mk_endpoint addr port]) addresses [].

(** [TORRENT_ASSERT(!addresses.empty())] is compiled out of release
    builds; the resolver's contract provides it. *)
Definition on_resolve (ec : error_code) (addresses : list address) : M unit :=
  if failed ec then
    write (set_connecting false) ;;
    post_connect_handler ec
  else
    port <- read m_port ;;
    do_tcp_connect (emplace_endpoints port addresses).

Definition do_ssl_handshake : M unit :=
  stream <- read m_stream ;;
  match stream with
  | stream_type => throw bad_variant_access   (* std::get<ssl_stream_type> *)
  | ssl_stream_type _ =>
      host <- read m_hostname ;;
      emit (ssl_set_host_name host) ;;
      if failed (set_host_name host) then
        write (set_connecting false) ;;
        post_connect_handler (mk_error (to_int ERR_get_error) ssl_category)
      else emit ssl_async_handshake
  end.

Definition do_handshake : M unit :=
  user_agent <- read m_user_agent ;;
  host <- read m_hostname ;;
  target <- read m_target ;;
  emit (ws_async_handshake host target
          (if String.eqb user_agent "" then None else Some user_agent)).

Definition on_tcp_connect (ec : error_code) : M unit :=
  if failed ec then
    write (set_connecting false) ;;
    post_connect_handler ec
  else
    stream <- read m_stream ;;
    if holds_ssl_stream_type stream then do_ssl_handshake else do_handshake.

Definition on_ssl_handshake (ec : error_code) : M unit :=
  if failed ec then
    write (set_connecting false) ;;
    post_connect_handler operation_aborted
  else do_handshake.

Definition on_handshake (ec : error_code) : M unit :=
  if failed ec then
    write (set_connecting false) ;;
    post_connect_handler ec
  else
    connecting <- read m_connecting ;;
    if negb connecting then post_connect_handler operation_aborted
    else
      write (set_connecting false) ;;
      write (set_open true) ;;
      post_connect_handler success.

Definition on_read (ec : error_code) (bytes_read : N) (h : handler) : M unit :=
  open <- read m_open ;;
  if negb open then ret tt
  else
    (* Clean close from remote *)
    (if Error.eqb ec closed then write (set_open false) else ret tt) ;;
    emit (post (bind_read_handler h ec bytes_read)).

Definition on_write (ec : error_code) (bytes_written : N) (h : handler) : M unit :=
  open <- read m_open ;;
  if negb open then ret tt
  else emit (post (bind_write_handler h ec bytes_written)).

Definition on_close (ec : error_code) : M unit := ret tt.

(** The constructor's initialiser list; the members it does not name are
    default-constructed by the class definition and taken from [blank]. *)
Definition construct (ssl_ctx : option ssl_context) (blank : websocket_stream)
  : websocket_stream :=
  mk_websocket_stream ssl_ctx stream_type false false (m_url blank)
    (m_hostname blank) (m_port blank) (m_target blank) (m_endpoints blank)
    (m_user_agent blank) (m_connect_handler blank).

(** [shared_from_this()]: succeeds while a [shared_ptr] owns the object. *)
Definition shared_from_this (owned : bool) : M unit :=
  if owned then ret tt else throw bad_weak_ptr.

(** [~websocket_stream()]: the body of [close()] as it runs in the
    destructor.  The last owning [shared_ptr] is gone by then, so
    [shared_from_this()], evaluated as an argument of [async_close],
    throws before the close is started; the destructor being [noexcept],
    the exception ends the program. *)
Definition destruct_stream : M unit :=
  open <- read m_open ;;
  connecting <- read m_connecting ;;
  if open || connecting then
    write (set_open false) ;;
    write (set_connecting false) ;;
    stream <- read m_stream ;;
    shared_from_this false ;;
    emit (ws_async_close stream)
  else ret tt.

(** ** The event loop around the object

    Calls into the object and completions of the operations it issued
    arrive one at a time on the single-threaded io_context. *)
Inductive event : Type :=
| call_close
| call_do_connect (url : string)
| call_set_user_agent (user_agent : string)
| complete_resolve (ec : error_code) (addresses : list address)
| complete_tcp_connect (ec : error_code)
| complete_ssl_handshake (ec : error_code)
| complete_handshake (ec : error_code)
| complete_read (ec : error_code) (bytes_read : N) (h : handler)
| complete_write (ec : error_code) (bytes_written : N) (h : handler)
| complete_close (ec : error_code)
| run_posted.   (* the loop runs the oldest posted function object *)

Definition dispatch (e : event) : M unit :=
  match e with
  | call_close => close
  | call_do_connect url => do_connect url
  | call_set_user_agent ua => set_user_agent ua
  | complete_resolve ec addresses => on_resolve ec addresses
  | complete_tcp_connect ec => on_tcp_connect ec
  | complete_ssl_handshake ec => on_ssl_handshake ec
  | complete_handshake ec => on_handshake ec
  | complete_read ec n h => on_read ec n h
  | complete_write ec n h => on_write ec n h
  | complete_close ec => on_close ec
  | run_posted => ret tt
  end.

(** What an observer of the collaborators sees, in order. *)
Inductive observation : Type :=
| started (a : action)      (* an operation handed to a collaborator *)
| invoked (t : task).       (* a caller's handler actually called *)

Record world : Type := mk_world {
  self : websocket_stream;
  posted : list task;            (* the io_context's queue, oldest first *)
  seen : list observation        (* oldest first *)
}.

(** Carrying out what a member function issued: [post] only enqueues. *)
Fixpoint perform (out : list action) (w : world) : world :=
  match out with
  | [] => w
  | post t :: rest => perform rest (mk_world (self w) (posted w ++ [t]) (seen w))
  | a :: rest => perform rest (mk_world (self w) (posted w) (seen w ++ [started a]))
  end.

Definition step (e : event) (w : world) : world :=
  match e with
  | run_posted =>
      match posted w with
      | [] => w
      | t :: rest => mk_world (self w) rest (seen w ++ [invoked t])
      end
  | _ =>
      match dispatch e (self w) with
      | (_, s', out) => perform out (mk_world s' (posted w) (seen w))
      end
  end.

Definition run (es : list event) (w : world) : world :=
  fold_left (fun w e => step e w) es w.

(** The handlers invoked so far. *)
Definition invocations (w : world) : list task :=
  flat_map (fun o => match o with invoked t => [t] | started _ => [] end) (seen w).

(** Running the loop until everything queued so far has been called. *)
Definition drain (w : world) : world :=
  run (repeat run_posted (List.length (posted w))) w.

End Members.

(** Modelled from the spec: Boost.Asio's range [async_connect], an
    external collaborator whose code is not part of this repository;
    candidates are tried sequentially, one at a time, until one connects or
    the range is exhausted.  [connects] says which endpoints accept; the
    result lists the attempts made, in order, and whether one succeeded. *)
Fixpoint connect_attempts (connects : endpoint -> bool) (range : list endpoint)
  : list endpoint * bool :=
  match range with
  | [] => ([], false)
  | e :: rest =>
      if connects e then ([e], true)
      else let (tried, ok) := connect_attempts connects rest in (e :: tried, ok)
  end.

(** ** The lifecycle states of the specification, read off the two flags *)

Inductive phase : Type :=
| idle_or_closed     (* Idle and Closed: neither flag set *)
| connecting_phase   (* Resolving ... ProtocolHandshaking *)
| open_phase
| illegal_phase.     (* both flags set *)

Definition phase_of (s : websocket_stream) : phase :=
  match m_open s, m_connecting s with
  | false, false => idle_or_closed
  | false, true => connecting_phase
  | true, false => open_phase
  | true, true => illegal_phase
  end.

(** The two flags are never set together. *)
Definition exclusive (s : websocket_stream) : Prop :=
  m_open s && m_connecting s = false.

(** Events that are read or write completions. *)
Definition is_io_completion (e : event) : bool :=
  match e with
  | complete_read _ _ _ | complete_write _ _ _ => true
  | _ => false
  end.

(** Events that start a new connect attempt. *)
Definition is_connect_call (e : event) : bool :=
  match e with
  | call_do_connect _ => true
  | _ => false
  end.

(** The object a connect attempt starts from: what [do_connect] leaves
    behind once the URL is parsed and its scheme accepted. *)
Definition attempt_started (s : websocket_stream) (v : stream_variant)
  (url host : string) (port : Z) (path : string) : websocket_stream :=
  mk_websocket_stream (m_ssl_context s) v false true url host
    (if port <=? 0 then 443 else to_uint16 port)
    (if String.eqb path "" then "/"%string else path)
    (m_endpoints s) (m_user_agent s) (m_connect_handler s).

(** ** Concrete inputs for the examples

    The values [parse_url_components] yields on the URLs used below: an
    unspecified port is reported as -1, a missing path as the empty string,
    and anything else here as [errors::unsupported_url_protocol]. *)
Definition sample_parse (url : string)
  : (string * string * string * Z * string) * error_code :=
  if String.eqb url "wss://tracker.example" then
    ("wss", "", "tracker.example", -1, "", success)%string
  else if String.eqb url "ws://tracker.example:8000/announce" then
    ("ws", "", "tracker.example", 8000, "/announce", success)%string
  else if String.eqb url "ws://tracker.example" then
    ("ws", "", "tracker.example", -1, "", success)%string
  else ("", "", "", -1, "", mk_error 24 libtorrent_category)%string.

(** A TLS layer that accepts every host name, and one that refuses all. *)
Definition sni_accepted (host : string) : error_code := success.
Definition sni_refused (host : string) : error_code := mk_error 1 ssl_category.

(** SSL_R_SSL3_EXT_INVALID_SERVERNAME packed as OpenSSL does. *)
Definition sample_openssl_error : Z := 0x1408F13F.

(** A freshly constructed stream with a TLS context, handler 7 stored. *)
Definition fresh_stream : websocket_stream :=
  construct (Some 1%nat)
    (mk_websocket_stream None stream_type false false "" "" 0 "" [] "" 7%nat).

(** The same object in the middle of a connect attempt, and open. *)
Definition handshaking_stream : websocket_stream :=
  attempt_started fresh_stream stream_type
    "ws://tracker.example" "tracker.example" (-1) "".
Definition open_stream : websocket_stream :=
  set_open true (set_connecting false handshaking_stream).

Definition world_of (s : websocket_stream) : world := mk_world s [] [].

Definition addr_A : address := address_v4 0x0A000001.
Definition addr_B : address := address_v4 0x0A000002.
Definition addr_C : address := address_v6 0x20010DB8000000000000000000000001.

(** A network in which only [addr_B] accepts connections. *)
Definition only_B_accepts (e : endpoint) : bool :=
  match ep_address e with
  | address_v4 a => N.eqb a 0x0A000002
  | address_v6 _ => false
  end.

(** The upgrade request [do_handshake] issues for an object. *)
Definition upgrade_request (s : websocket_stream) : action :=
  ws_async_handshake (m_hostname s) (m_target s)
    (if String.eqb (m_user_agent s) "" then None else Some (m_user_agent s)).

(** The function objects among the operations a call issued. *)
Definition posts_of (out : list action) : list task :=
  flat_map (fun a => match a with post t => [t] | _ => [] end) out.

(** Events that end a connect attempt in progress: close(), or a stage
    completing with an error. *)
Definition ends_attempt (e : event) : bool :=
  match e with
  | call_close => true
  | complete_resolve ec _ | complete_tcp_connect ec
  | complete_ssl_handshake ec | complete_handshake ec => failed ec
  | _ => false
  end.

(** A parser result with a port that does not fit 16 bits. *)
Definition wide_port_parse (url : string)
  : (string * string * string * Z * string) * error_code :=
  ("ws", "", "tracker.example", 65616, "/announce", success)%string.

(** * Properties *)

Ltac unfold_members :=
  unfold step, dispatch, state_after, issued, result,
    close, do_connect, do_resolve, on_resolve, do_tcp_connect, on_tcp_connect,
    do_ssl_handshake, on_ssl_handshake, do_handshake, on_handshake,
    on_read, on_write, on_close, set_user_agent, post_connect_handler,
    bind, ret, read, write, emit, throw in *.

Ltac unfold_step := unfold step, dispatch in *.

Ltac innermost b :=
  lazymatch b with
  | context [if _ then _ else _] => fail
  | context [match _ with _ => _ end] => fail
  | _ => idtac
  end.

Ltac break_goal :=
  repeat match goal with
    | |- context [if ?b then _ else _] => innermost b; destruct b eqn:?; cbn in *
    | |- context [match ?x with _ => _ end] => innermost x; destruct x eqn:?; cbn in *
    end.

Section Properties.

Variable parse_url_components :
  string -> (string * string * string * Z * string) * error_code.
Variable set_host_name : string -> error_code.
Variable ERR_get_error : Z.

#[local] Abbreviation dispatch := (dispatch parse_url_components set_host_name ERR_get_error).
#[local] Abbreviation step := (step parse_url_components set_host_name ERR_get_error).
#[local] Abbreviation run := (run parse_url_components set_host_name ERR_get_error).
#[local] Abbreviation drain := (drain parse_url_components set_host_name ERR_get_error).
#[local] Abbreviation do_connect := (do_connect parse_url_components).
#[local] Abbreviation do_ssl_handshake := (do_ssl_handshake set_host_name ERR_get_error).
#[local] Abbreviation on_tcp_connect := (on_tcp_connect set_host_name ERR_get_error).

(** ** Framing: which members a call can touch *)

Lemma run_app (es1 es2 : list event) (w : world) :
  run (es1 ++ es2) w = run es2 (run es1 w).
Proof. unfold run. apply fold_left_app. Qed.

Lemma run_cons (e : event) (es : list event) (w : world) :
  run (e :: es) w = run es (step e w).
Proof. reflexivity. Qed.

Lemma perform_self (out : list action) (w : world) :
  self (perform out w) = self w.
Proof.
  revert w. induction out as [|a out IH]; intro w; [reflexivity|].
  destruct a; cbn; rewrite IH; reflexivity.
Qed.

Lemma step_self (e : event) (w : world) :
  self (step e w) = state_after (dispatch e) (self w).
Proof.
  unfold step, state_after.
  destruct e;
    try (destruct (dispatch _ (self w)) as [[r s'] out] eqn:E;
         rewrite perform_self; reflexivity).
  cbn. destruct (posted w); reflexivity.
Qed.

(** No member function sets both flags. *)
Lemma dispatch_exclusive (e : event) (s : websocket_stream) :
  exclusive s -> exclusive (state_after (dispatch e) s).
Proof.
  unfold exclusive. intro H.
  destruct e; unfold_members; destruct s as [ctx v o c u hn p t eps ua hd]; cbn in *.
  - destruct o, c; cbn in *; congruence.
  - destruct o; [discriminate H || (cbn in *; destruct c; cbn in *; congruence)|].
    destruct c; cbn in *; [reflexivity|].
    destruct (parse_url_components url) as [[[[[proto au] host] port] path] ec].
    cbn. destruct (failed ec); cbn; [reflexivity|].
    destruct (String.eqb proto "ws"); cbn.
    + destruct (String.eqb path ""); reflexivity.
    + destruct (String.eqb proto "wss"), ctx; cbn;
        try reflexivity; destruct (String.eqb path ""); reflexivity.
  - exact H.
  - destruct (failed ec); cbn; [apply andb_false_r | exact H].
  - destruct (failed ec); cbn; [apply andb_false_r|].
    destruct v; cbn; [exact H|].
    destruct (failed (set_host_name hn)); cbn; [apply andb_false_r | exact H].
  - destruct (failed ec); cbn; [apply andb_false_r | exact H].
  - destruct (failed ec); cbn; [apply andb_false_r|].
    destruct c; cbn; [reflexivity | exact H].
  - destruct o; cbn; [|exact H].
    destruct (Error.eqb ec closed); cbn; [reflexivity | exact H].
  - destruct o; cbn; exact H.
  - exact H.
  - exact H.
Qed.

Lemma construct_exclusive ssl_ctx blank : exclusive (construct ssl_ctx blank).
Proof. reflexivity. Qed.

Lemma run_exclusive (es : list event) (w : world) :
  exclusive (self w) -> exclusive (self (run es w)).
Proof.
  revert w. induction es as [|e es IH]; intros w H; [exact H|].
  rewrite run_cons. apply IH. rewrite step_self. now apply dispatch_exclusive.
Qed.

(** ** Handshake completion and supersession *)

(** Nothing in this translation unit assigns [m_connect_handler]. *)
Lemma dispatch_connect_handler (e : event) (s : websocket_stream) :
  m_connect_handler (state_after (dispatch e) s) = m_connect_handler s.
Proof.
  destruct e; unfold_members; destruct s as [ctx v o c u hn p t eps ua hd]; cbn;
    break_goal; reflexivity.
Qed.

Lemma run_connect_handler (es : list event) (w : world) :
  m_connect_handler (self (run es w)) = m_connect_handler (self w).
Proof.
  revert w. induction es as [|e es IH]; intro w; [reflexivity|].
  rewrite run_cons, IH, step_self. apply dispatch_connect_handler.
Qed.

(** Only [do_connect] leaves the idle-or-closed phase. *)
Lemma dispatch_stays_closed (e : event) (s : websocket_stream) :
  is_connect_call e = false ->
  phase_of s = idle_or_closed ->
  phase_of (state_after (dispatch e) s) = idle_or_closed.
Proof.
  unfold phase_of. intros He Hs.
  destruct e; try discriminate He; unfold_members;
    destruct s as [ctx v [|] [|] u hn p t eps ua hd]; cbn in *;
    try discriminate Hs; break_goal; reflexivity.
Qed.

Lemma run_stays_closed (es : list event) (w : world) :
  Forall (fun e => is_connect_call e = false) es ->
  phase_of (self w) = idle_or_closed ->
  phase_of (self (run es w)) = idle_or_closed.
Proof.
  revert w. induction es as [|e es IH]; intros w Hes Hw; [exact Hw|].
  inversion Hes as [|? ? He Hes']; subst.
  rewrite run_cons. apply IH; [exact Hes'|].
  rewrite step_self. now apply dispatch_stays_closed.
Qed.

Lemma close_phase (s : websocket_stream) :
  phase_of (state_after close s) = idle_or_closed.
Proof.
  unfold phase_of. unfold_members.
  destruct s as [ctx v [|] [|] u hn p t eps ua hd]; reflexivity.
Qed.

(** [on_handshake] reached with no error while [m_connecting] is clear:
    the re-check posts [operation_aborted] and touches nothing. *)
Lemma handshake_success_recheck (w : world) (ec : error_code) :
  failed ec = false ->
  m_connecting (self w) = false ->
  step (complete_handshake ec) w =
    mk_world (self w)
      (posted w ++ [bind_connect_handler (m_connect_handler (self w)) operation_aborted])
      (seen w).
Proof.
  intros Hec Hc. destruct w as [s q o].
  unfold_members. cbn in *. rewrite Hec, Hc. reflexivity.
Qed.

(** [on_handshake] reached with an error: the error is posted as it is,
    whatever the flags are. *)
Lemma handshake_failure_forwarded (w : world) (ec : error_code) :
  failed ec = true ->
  step (complete_handshake ec) w =
    mk_world (set_connecting false (self w))
      (posted w ++ [bind_connect_handler (m_connect_handler (self w)) ec])
      (seen w).
Proof.
  intros Hec. destruct w as [s q o].
  unfold_members. cbn in *. rewrite Hec. reflexivity.
Qed.

(** C1. Whenever close() has run while the protocol handshake was
    outstanding and no new connect was started since, the machine is out of
    the connecting phase; a handshake completion that then arrives with no
    error posts the connect handler with [operation_aborted] (Aborted),
    invokes nothing synchronously, leaves every data member as it was, and
    so does not move the machine to Open. *)
Theorem handshake_success_after_close_is_aborted
  (w : world) (es : list event) (ec : error_code) :
  failed ec = false ->
  Forall (fun e => is_connect_call e = false) es ->
  let w1 := run es (step call_close w) in
  let w2 := step (complete_handshake ec) w1 in
  phase_of (self w1) = idle_or_closed /\
  posted w2 =
    posted w1 ++ [bind_connect_handler (m_connect_handler (self w)) operation_aborted] /\
  seen w2 = seen w1 /\
  self w2 = self w1 /\
  phase_of (self w2) <> open_phase.
Proof.
  intros Hec Hes w1 w2.
  assert (Hp : phase_of (self w1) = idle_or_closed).
  { apply run_stays_closed; [exact Hes|]. rewrite step_self. apply close_phase. }
  assert (Hc : m_connecting (self w1) = false).
  { unfold phase_of in Hp. destruct (m_open (self w1)), (m_connecting (self w1));
      congruence. }
  assert (Hh : m_connect_handler (self w1) = m_connect_handler (self w)).
  { unfold w1. rewrite run_connect_handler, step_self. apply dispatch_connect_handler. }
  unfold w2. rewrite (handshake_success_recheck w1 ec Hec Hc). cbn.
  rewrite Hh, Hp. repeat split; discriminate.
Qed.

(** C10. The re-check guards the success branch only: when close() ran
    during the protocol handshake and the handshake then completes with an
    error, that very error is posted to the connect handler; exactly one
    function object is queued, and it is the Aborted one only when the
    handshake error itself is [operation_aborted]. *)
Theorem handshake_error_after_close_is_forwarded
  (w : world) (es : list event) (ec : error_code) :
  failed ec = true ->
  Forall (fun e => is_connect_call e = false) es ->
  let w1 := run es (step call_close w) in
  let w2 := step (complete_handshake ec) w1 in
  phase_of (self w1) = idle_or_closed /\
  (exists t : task,
     posted w2 = posted w1 ++ [t] /\
     t = bind_connect_handler (m_connect_handler (self w)) ec /\
     (ec <> operation_aborted ->
      t <> bind_connect_handler (m_connect_handler (self w)) operation_aborted)) /\
  seen w2 = seen w1 /\
  phase_of (self w2) = idle_or_closed.
Proof.
  intros Hec Hes w1 w2.
  assert (Hp : phase_of (self w1) = idle_or_closed).
  { apply run_stays_closed; [exact Hes|]. rewrite step_self. apply close_phase. }
  assert (Hh : m_connect_handler (self w1) = m_connect_handler (self w)).
  { unfold w1. rewrite run_connect_handler, step_self. apply dispatch_connect_handler. }
  unfold w2. rewrite (handshake_failure_forwarded w1 ec Hec). cbn.
  rewrite Hh. split; [exact Hp|]. split; [|split; [reflexivity|]].
  - eexists. repeat split. congruence.
  - unfold phase_of in *. destruct (self w1) as [ctx v [|] [|] u hn p t eps ua hd];
      cbn in *; congruence.
Qed.

(** ** The I/O proxy *)

Lemma read_dropped (w : world) (ec : error_code) (n : N) (h : handler) :
  m_open (self w) = false -> step (complete_read ec n h) w = w.
Proof.
  intros Ho. destruct w as [s q o]. unfold_members. cbn in *. rewrite Ho. reflexivity.
Qed.

Lemma write_dropped (w : world) (ec : error_code) (n : N) (h : handler) :
  m_open (self w) = false -> step (complete_write ec n h) w = w.
Proof.
  intros Ho. destruct w as [s q o]. unfold_members. cbn in *. rewrite Ho. reflexivity.
Qed.

(** C3. A read or write completion that arrives while [m_open] is clear
    is dropped: the member function issues nothing (no handler is posted,
    no error is posted in its place), the object is unchanged, and the
    rest of every execution is what it would be had the completion never
    arrived. *)
Theorem completion_dropped_when_not_open
  (w : world) (ec : error_code) (n : N) (h : handler) :
  m_open (self w) = false ->
  issued (on_read ec n h) (self w) = [] /\
  issued (on_write ec n h) (self w) = [] /\
  step (complete_read ec n h) w = w /\
  step (complete_write ec n h) w = w /\
  (forall es, run (complete_read ec n h :: es) w = run es w) /\
  (forall es, run (complete_write ec n h :: es) w = run es w).
Proof.
  intros Ho.
  pose proof (read_dropped w ec n h Ho) as Hr.
  pose proof (write_dropped w ec n h Ho) as Hw.
  repeat split.
  - unfold_members. rewrite Ho. reflexivity.
  - unfold_members. rewrite Ho. reflexivity.
  - exact Hr.
  - exact Hw.
  - intros es. rewrite run_cons, Hr. reflexivity.
  - intros es. rewrite run_cons, Hw. reflexivity.
Qed.

Lemma drain_spec (w : world) :
  drain w = mk_world (self w) [] (seen w ++ map invoked (posted w)).
Proof.
  unfold drain. destruct w as [s q o]. cbn [posted self seen].
  revert o. induction q as [|t q IH]; intro o.
  - cbn. rewrite app_nil_r. reflexivity.
  - cbn [List.length repeat]. rewrite run_cons. cbn [step posted self seen].
    rewrite IH. cbn [map]. rewrite <- app_assoc. reflexivity.
Qed.

Lemma invocations_app (s : websocket_stream) (q : list task) (o1 o2 : list observation) :
  invocations (mk_world s q (o1 ++ o2)) =
  invocations (mk_world s q o1) ++ invocations (mk_world s q o2).
Proof. unfold invocations. cbn. apply flat_map_app. Qed.

Lemma invocations_invoked (s : websocket_stream) (q ts : list task) :
  invocations (mk_world s q (map invoked ts)) = ts.
Proof.
  unfold invocations. cbn. induction ts as [|t ts IH]; [reflexivity|].
  cbn. now rewrite IH.
Qed.

Lemma invocations_drain (w : world) :
  invocations (drain w) = invocations w ++ posted w.
Proof.
  rewrite drain_spec. destruct w as [s q o]. cbn [self posted seen].
  rewrite invocations_app, invocations_invoked. reflexivity.
Qed.

Lemma io_completions_dropped (es : list event) (w : world) :
  m_open (self w) = false ->
  Forall (fun e => is_io_completion e = true) es ->
  run es w = w.
Proof.
  intros Ho Hes. induction Hes as [|e es He _ IH]; [reflexivity|].
  rewrite run_cons.
  destruct e; try discriminate He.
  - rewrite read_dropped by exact Ho. exact IH.
  - rewrite write_dropped by exact Ho. exact IH.
Qed.

(** C9. A read completion carrying [websocket::error::closed] while the
    machine is Open clears [m_open] (the machine is Closed) and only then
    posts the caller's read handler: after the call the completion is
    queued and not yet called.  Every read or write completion that
    arrives later is dropped, so once the loop has run the queue exactly
    this one completion has been added to the handlers called. *)
Theorem clean_close_forwards_exactly_once
  (w : world) (n : N) (h : handler) (later : list event) :
  phase_of (self w) = open_phase ->
  Forall (fun e => is_io_completion e = true) later ->
  let w1 := step (complete_read closed n h) w in
  self w1 = set_open false (self w) /\
  phase_of (self w1) = idle_or_closed /\
  posted w1 = posted w ++ [bind_read_handler h closed n] /\
  seen w1 = seen w /\
  run later w1 = w1 /\
  invocations (drain (run later w1)) =
    invocations w ++ posted w ++ [bind_read_handler h closed n].
Proof.
  intros Hp Hl w1.
  assert (E : w1 = mk_world (set_open false (self w))
                     (posted w ++ [bind_read_handler h closed n]) (seen w)).
  { unfold w1. destruct w as [s q o]. unfold phase_of in Hp.
    unfold_members. destruct s as [ctx v [|] [|] u hn p t eps ua hd];
      cbn in *; try discriminate Hp. reflexivity. }
  assert (Hd : run later w1 = w1).
  { apply io_completions_dropped; [|exact Hl]. rewrite E. reflexivity. }
  rewrite Hd, invocations_drain, E. cbn [self posted seen].
  repeat split.
  unfold phase_of in *. destruct (self w) as [ctx v [|] [|] u hn p t eps ua hd];
    cbn in *; congruence.
Qed.

(** ** close() *)

(** C4. close() does nothing at all when neither flag is set (Idle or
    Closed).  Otherwise it clears both flags at once, so the machine is
    Closed as soon as the call returns and before the close exchange
    completes, and starts one asynchronous close on the current stream; it
    posts nothing and calls no handler.  The completion of that close,
    [on_close], changes nothing and reports to no one. *)
Theorem close_is_optimistic_and_silent (w : world) :
  step call_close w =
    match phase_of (self w) with
    | idle_or_closed => w
    | _ => mk_world (set_connecting false (set_open false (self w)))
             (posted w)
             (seen w ++ [started (ws_async_close (m_stream (self w)))])
    end /\
  phase_of (self (step call_close w)) = idle_or_closed /\
  posted (step call_close w) = posted w /\
  invocations (step call_close w) = invocations w /\
  (forall ec w', step (complete_close ec) w' = w').
Proof.
  assert (E : step call_close w =
    match phase_of (self w) with
    | idle_or_closed => w
    | _ => mk_world (set_connecting false (set_open false (self w)))
             (posted w)
             (seen w ++ [started (ws_async_close (m_stream (self w)))])
    end).
  { destruct w as [s q o]. unfold phase_of. unfold_members.
    destruct s as [ctx v [|] [|] u hn p t eps ua hd]; reflexivity. }
  split; [exact E|]. rewrite E.
  destruct w as [s q o]. unfold phase_of.
  assert (Hi : forall s1 s2 a, invocations (mk_world s1 q (o ++ [started a])) =
                              invocations (mk_world s2 q o)).
  { intros. unfold invocations. cbn. rewrite flat_map_app. cbn. apply app_nil_r. }
  destruct s as [ctx v [|] [|] u hn p t eps ua hd]; cbn [self posted seen m_open m_connecting];
    repeat split; try (destruct w' as [s' q' o']; reflexivity); apply Hi.
Qed.

(** ** The secure handshake stage *)

(** C5. Whatever error the TLS handshake completes with, the connect
    handler is posted with [operation_aborted] (the generic Aborted), not
    with that error, and [m_connecting] is cleared: the machine is no
    longer in the connecting phase, and is Idle when it was connecting. *)
Theorem ssl_handshake_failure_is_sanitized (w : world) (ec : error_code) :
  failed ec = true ->
  let w1 := step (complete_ssl_handshake ec) w in
  posted w1 =
    posted w ++ [bind_connect_handler (m_connect_handler (self w)) operation_aborted] /\
  seen w1 = seen w /\
  self w1 = set_connecting false (self w) /\
  phase_of (self w1) <> connecting_phase /\
  (phase_of (self w) = connecting_phase -> phase_of (self w1) = idle_or_closed).
Proof.
  intros Hec w1.
  assert (E : w1 = mk_world (set_connecting false (self w))
      (posted w ++ [bind_connect_handler (m_connect_handler (self w)) operation_aborted])
      (seen w)).
  { unfold w1. destruct w as [s q o]. unfold_members. cbn in *.
    rewrite Hec. reflexivity. }
  rewrite E. cbn [self posted seen]. repeat split.
  - unfold phase_of. destruct (self w) as [ctx v [|] [|] u hn p t eps ua hd];
      cbn; discriminate.
  - unfold phase_of. destruct (self w) as [ctx v [|] [|] u hn p t eps ua hd];
      cbn; congruence.
Qed.

(** ** connect *)

Lemma do_connect_accepted
  (s : websocket_stream) (url proto auth host path : string) (port : Z)
  (pec : error_code) (v : stream_variant) :
  phase_of s = idle_or_closed ->
  parse_url_components url = (proto, auth, host, port, path, pec) ->
  failed pec = false ->
  (proto = "ws"%string /\ v = stream_type) \/
  (proto = "wss"%string /\ exists c, m_ssl_context s = Some c /\ v = ssl_stream_type c) ->
  do_connect url s =
    (returned tt, attempt_started s v url host port path, [resolver_async_resolve host]).
Proof.
  intros Hp Hparse Hec Hv. unfold phase_of in Hp. unfold attempt_started.
  unfold_members. destruct s as [ctx sv [|] [|] u hn p t eps ua hd];
    cbn in *; try discriminate Hp.
  rewrite Hparse. cbn. rewrite Hec. cbn.
  destruct Hv as [[-> ->] | [-> [c [-> ->]]]]; cbn;
    destruct (String.eqb path ""); cbn; destruct (port <=? 0); reflexivity.
Qed.

(** C8. When [do_connect] accepts a URL (it parsed, and its scheme is
    "ws", or "wss" with a TLS context configured), the handshake target it
    stores and resolves is the parsed host, the parsed path with the empty
    path replaced by "/", and the parsed port with every port that is zero
    or negative (the parser's "unspecified") replaced by 443, under either
    scheme; a positive port is kept, converted to 16 bits. *)
Theorem handshake_target_defaults
  (s : websocket_stream) (url proto auth host path : string) (port : Z)
  (pec : error_code) :
  phase_of s = idle_or_closed ->
  parse_url_components url = (proto, auth, host, port, path, pec) ->
  failed pec = false ->
  proto = "ws"%string \/ (proto = "wss"%string /\ m_ssl_context s <> None) ->
  let s' := state_after (do_connect url) s in
  issued (do_connect url) s = [resolver_async_resolve host] /\
  m_hostname s' = host /\
  m_target s' = (if String.eqb path "" then "/"%string else path) /\
  m_port s' = (if port <=? 0 then 443 else to_uint16 port) /\
  (path = ""%string -> m_target s' = "/"%string) /\
  (port <= 0 -> m_port s' = 443) /\
  m_stream s' = (if String.eqb proto "ws" then stream_type
                 else match m_ssl_context s with
                      | Some c => ssl_stream_type c
                      | None => m_stream s
                      end).
Proof.
  intros Hp Hparse Hec Hproto s'.
  assert (exists v, do_connect url s =
            (returned tt, attempt_started s v url host port path,
             [resolver_async_resolve host]) /\
          v = (if String.eqb proto "ws" then stream_type
               else match m_ssl_context s with
                    | Some c => ssl_stream_type c
                    | None => m_stream s
                    end)) as [v [E Hv]].
  { destruct Hproto as [-> | [-> Hctx]].
    - exists stream_type. split; [|reflexivity].
      eapply do_connect_accepted; eauto.
    - destruct (m_ssl_context s) as [c|] eqn:Hc; [|congruence].
      exists (ssl_stream_type c). split; [|reflexivity].
      eapply do_connect_accepted; eauto. }
  unfold s', state_after, issued. rewrite E. cbn.
  repeat split; try exact Hv.
  - intros ->. reflexivity.
  - intros Hle. apply Z.leb_le in Hle. rewrite Hle. reflexivity.
Qed.

(** ** Resolution and TCP connect *)

Lemma emplace_endpoints_map (port : Z) (addresses : list address) :
  emplace_endpoints port addresses = map (fun a => mk_endpoint a port) addresses.
Proof.
  unfold emplace_endpoints.
  assert (G : forall acc,
             fold_left (fun endpoints addr => endpoints ++ [mk_endpoint addr port])
               addresses acc
             = acc ++ map (fun a => mk_endpoint a port) addresses).
  { induction addresses as [|a l IH]; intro acc; cbn.
    - now rewrite app_nil_r.
    - rewrite IH, <- app_assoc. reflexivity. }
  apply G.
Qed.

Lemma on_resolve_success (w : world) (ec : error_code) (addresses : list address) :
  failed ec = false ->
  let endpoints := map (fun a => mk_endpoint a (m_port (self w))) addresses in
  step (complete_resolve ec addresses) w =
    mk_world (set_endpoints endpoints (self w)) (posted w)
      (seen w ++ [started (asio_async_connect (rev endpoints))]).
Proof.
  intros Hec endpoints. destruct w as [s q o]. unfold_members. cbn in *.
  rewrite Hec. cbn. unfold reverse_range. rewrite emplace_endpoints_map. reflexivity.
Qed.

(** The attempts of a sequential connect are a prefix of the range; it
    stops at the first endpoint that accepts, or runs through the range. *)
Lemma connect_attempts_spec (connects : endpoint -> bool) (range : list endpoint) :
  let (tried, ok) := connect_attempts connects range in
  (exists rest, range = tried ++ rest) /\
  (if ok
   then exists before e, tried = before ++ [e] /\ connects e = true /\
                         forallb (fun x => negb (connects x)) before = true
   else tried = range /\ forallb (fun x => negb (connects x)) range = true).
Proof.
  induction range as [|e rest IH]; cbn.
  - split; [exists []; reflexivity | split; reflexivity].
  - destruct (connects e) eqn:He.
    + split; [exists rest; reflexivity|]. exists [], e. repeat split. exact He.
    + destruct (connect_attempts connects rest) as [tried ok].
      destruct IH as [[rest' Hr] Hok]. split.
      * exists rest'. cbn. now rewrite <- Hr.
      * destruct ok.
        -- destruct Hok as (before & e' & -> & He' & Hb).
           exists (e :: before), e'. split; [reflexivity|]. split; [exact He'|].
           cbn. rewrite He, Hb. reflexivity.
        -- destruct Hok as [-> Hb]. split; [reflexivity|].
           cbn. exact Hb.
Qed.

(** C2. On a successful resolve the endpoints are stored in the
    resolver's order and the connect operation is started on them from the
    last to the first: the candidates are the resolver's addresses in
    reverse.  The sequential connect tries a prefix of that reversed list,
    one endpoint after the other, stopping at the first that accepts; when
    none accepts it has tried them all. *)
Theorem tcp_connect_tries_candidates_in_reverse
  (w : world) (ec : error_code) (addresses : list address)
  (connects : endpoint -> bool) :
  failed ec = false ->
  let w1 := step (complete_resolve ec addresses) w in
  let range := rev (map (fun a => mk_endpoint a (m_port (self w))) addresses) in
  seen w1 = seen w ++ [started (asio_async_connect range)] /\
  posted w1 = posted w /\
  m_endpoints (self w1) = map (fun a => mk_endpoint a (m_port (self w))) addresses /\
  map ep_address range = rev addresses /\
  (let (tried, ok) := connect_attempts connects range in
   (exists rest, range = tried ++ rest) /\
   (if ok
    then exists before e, tried = before ++ [e] /\ connects e = true /\
                          forallb (fun x => negb (connects x)) before = true
    else tried = range /\ forallb (fun x => negb (connects x)) range = true)).
Proof.
  intros Hec w1 range. unfold w1.
  rewrite (on_resolve_success w ec addresses Hec). cbn [self posted seen].
  repeat split.
  - unfold range. rewrite map_rev, map_map. cbn. now rewrite map_id.
  - apply connect_attempts_spec.
Qed.

(** ** Server-name indication *)

Lemma tcp_connected_secure (w : world) (ec : error_code) (ctx : ssl_context) :
  failed ec = false ->
  m_stream (self w) = ssl_stream_type ctx ->
  let host := m_hostname (self w) in
  step (complete_tcp_connect ec) w =
    if failed (set_host_name host)
    then mk_world (set_connecting false (self w))
           (posted w ++ [bind_connect_handler (m_connect_handler (self w))
                           (mk_error (to_int ERR_get_error) ssl_category)])
           (seen w ++ [started (ssl_set_host_name host)])
    else mk_world (self w) (posted w)
           (seen w ++ [started (ssl_set_host_name host); started ssl_async_handshake]).
Proof.
  intros Hec Hv host. unfold host. destruct w as [s q o]. unfold_members.
  destruct s as [c v op cn u hn p t eps ua hd]. cbn in *. subst v.
  rewrite Hec. cbn. destruct (failed (set_host_name hn)); cbn.
  - reflexivity.
  - rewrite <- app_assoc. reflexivity.
Qed.

(** X19. In a connect attempt for a "wss" URL, once the TCP connection is
    up the host name of the URL is set on the TLS handle for server-name
    indication, and only after that is the TLS handshake started.  When
    setting the host name fails no handshake is started, [m_connecting] is
    cleared, which leaves the machine Idle, and the connect handler is
    posted with the code [static_cast<int>(ERR_get_error())] in the ssl
    category, whatever that value is. *)
Theorem secure_attempt_configures_sni_first
  (s : websocket_stream) (q : list task) (o : list observation)
  (url auth host path : string) (port : Z) (ctx : ssl_context)
  (pec rec tec : error_code) (addresses : list address) :
  phase_of s = idle_or_closed ->
  m_ssl_context s = Some ctx ->
  parse_url_components url = ("wss"%string, auth, host, port, path, pec) ->
  failed pec = false -> failed rec = false -> failed tec = false ->
  let w1 := run [call_do_connect url; complete_resolve rec addresses;
                 complete_tcp_connect tec] (mk_world s q o) in
  let range :=
    rev (map (fun a => mk_endpoint a (if port <=? 0 then 443 else to_uint16 port))
           addresses) in
  if failed (set_host_name host)
  then seen w1 = o ++ [started (resolver_async_resolve host);
                       started (asio_async_connect range);
                       started (ssl_set_host_name host)] /\
       posted w1 = q ++ [bind_connect_handler (m_connect_handler s)
                           (mk_error (to_int ERR_get_error) ssl_category)] /\
       phase_of (self w1) = idle_or_closed
  else seen w1 = o ++ [started (resolver_async_resolve host);
                       started (asio_async_connect range);
                       started (ssl_set_host_name host);
                       started ssl_async_handshake] /\
       posted w1 = q /\
       phase_of (self w1) = connecting_phase.
Proof.
  intros Hp Hctx Hparse Hpec Hrec Htec w1 range.
  assert (E1 : step (call_do_connect url) (mk_world s q o) =
               mk_world (attempt_started s (ssl_stream_type ctx) url host port path) q
                 (o ++ [started (resolver_async_resolve host)])).
  { unfold_step. cbn [self posted seen].
    rewrite (do_connect_accepted s url "wss" auth host path port pec
               (ssl_stream_type ctx) Hp Hparse Hpec).
    - reflexivity.
    - right. split; [reflexivity|]. exists ctx. split; [exact Hctx | reflexivity]. }
  unfold w1. rewrite !run_cons, E1.
  rewrite (on_resolve_success _ rec addresses Hrec). cbn [self posted seen].
  rewrite (tcp_connected_secure _ tec ctx Htec) by reflexivity.
  cbn [self posted seen].
  cbn [attempt_started m_hostname m_port set_endpoints m_connect_handler].
  fold range.
  destruct (failed (set_host_name host)); cbn [run fold_left self posted seen];
    rewrite <- !app_assoc; repeat split.
Qed.

(** * Further properties of the member functions *)

(** ** Invariants and frames *)

(** X1. From construction on, whatever calls and completions arrive and in
    whatever order, [m_open] and [m_connecting] are never set together. *)
Theorem flags_never_both_set
  (ssl_ctx : option ssl_context) (blank : websocket_stream)
  (q : list task) (o : list observation) (es : list event) :
  phase_of (self (run es (mk_world (construct ssl_ctx blank) q o))) <> illegal_phase.
Proof.
  pose proof (run_exclusive es (mk_world (construct ssl_ctx blank) q o)
                (construct_exclusive ssl_ctx blank)) as H.
  unfold exclusive, phase_of in *.
  destruct (m_open _), (m_connecting _); cbn in H; congruence.
Qed.

Lemma perform_posted (out : list action) (w : world) :
  posted (perform out w) = posted w ++ posts_of out.
Proof.
  revert w. induction out as [|a out IH]; intro w; cbn.
  - now rewrite app_nil_r.
  - destruct a; cbn; rewrite IH; cbn; try reflexivity.
    now rewrite <- app_assoc.
Qed.

Lemma perform_invocations (out : list action) (w : world) :
  invocations (perform out w) = invocations w.
Proof.
  revert w. induction out as [|a out IH]; intro w; [reflexivity|].
  destruct a; cbn; rewrite IH; unfold invocations; cbn; try reflexivity;
    rewrite flat_map_app; cbn; apply app_nil_r.
Qed.

Lemma dispatch_posts_at_most_one (e : event) (s : websocket_stream) :
  (List.length (posts_of (issued (dispatch e) s)) <= 1)%nat.
Proof.
  destruct e; unfold_members; destruct s as [ctx v op cn u hn p t eps ua hd]; cbn;
    break_goal; cbn; lia.
Qed.

Lemma step_perform (e : event) (w : world) :
  e <> run_posted ->
  step e w =
    perform (issued (dispatch e) (self w))
      (mk_world (state_after (dispatch e) (self w)) (posted w) (seen w)).
Proof.
  intros Hne. unfold step, issued, state_after.
  destruct e; try congruence;
    destruct (dispatch _ (self w)) as [[r s'] out]; reflexivity.
Qed.

(** X2. No member function calls a handler itself: a call or a completion
    leaves the handlers called so far as they are and appends at most one
    function object to the io_context's queue; a handler is called only
    when the loop takes the oldest queued function object. *)
Theorem handlers_run_only_from_the_queue (e : event) (w : world) :
  match e with
  | run_posted =>
      self (step e w) = self w /\
      posted (step e w) = tl (posted w) /\
      invocations (step e w) = invocations w ++ firstn 1 (posted w)
  | _ =>
      invocations (step e w) = invocations w /\
      exists ts, posted (step e w) = posted w ++ ts /\ (List.length ts <= 1)%nat
  end.
Proof.
  assert (G : forall e', e' <> run_posted ->
            invocations (step e' w) = invocations w /\
            exists ts, posted (step e' w) = posted w ++ ts /\
                       (List.length ts <= 1)%nat).
  { intros e' Hne. rewrite (step_perform e' w Hne).
    rewrite perform_invocations, perform_posted. split.
    - destruct w; reflexivity.
    - eexists. split; [reflexivity | apply dispatch_posts_at_most_one]. }
  destruct e; try (apply G; discriminate).
  destruct w as [s [|t q] o]; cbn.
  - repeat split. unfold invocations. cbn. now rewrite app_nil_r.
  - repeat split. unfold invocations. cbn. rewrite flat_map_app. reflexivity.
Qed.

(** X3. [std::get<ssl_stream_type>] in [do_ssl_handshake] throws on the
    plain alternative, but no call or completion can make it do so:
    [on_tcp_connect] enters it only when the variant holds the TLS stream,
    so every member function reached from the event loop returns
    normally. *)
Theorem no_event_throws (e : event) (s : websocket_stream) :
  result (dispatch e) s = returned tt /\
  (m_stream s = stream_type ->
   result do_ssl_handshake s = thrown bad_variant_access /\
   issued do_ssl_handshake s = [] /\
   state_after do_ssl_handshake s = s).
Proof.
  split.
  - destruct e; unfold_members; destruct s as [ctx v op cn u hn p t eps ua hd]; cbn;
      break_goal; try reflexivity; congruence.
  - intros Hv. unfold_members. rewrite Hv. repeat split.
Qed.

Lemma dispatch_ssl_context (e : event) (s : websocket_stream) :
  m_ssl_context (state_after (dispatch e) s) = m_ssl_context s.
Proof.
  destruct e; unfold_members; destruct s as [ctx v o c u hn p t eps ua hd]; cbn;
    break_goal; reflexivity.
Qed.

(** X4. Nothing in this translation unit assigns the stored connect
    handler or the TLS context pointer: along every execution both are
    what they were at the start. *)
Theorem handler_and_context_are_never_assigned (es : list event) (w : world) :
  m_connect_handler (self (run es w)) = m_connect_handler (self w) /\
  m_ssl_context (self (run es w)) = m_ssl_context (self w).
Proof.
  split; [apply run_connect_handler|].
  revert w. induction es as [|e es IH]; intro w; [reflexivity|].
  rewrite run_cons, IH, step_self. apply dispatch_ssl_context.
Qed.

(** X5. [m_open] is set by one event only: a protocol-handshake
    completion without error that finds [m_connecting] set. *)
Theorem open_only_by_handshake_success (e : event) (w : world) :
  m_open (self w) = false ->
  m_open (self (step e w)) = true ->
  exists ec, e = complete_handshake ec /\ failed ec = false /\
             m_connecting (self w) = true.
Proof.
  rewrite step_self. intros Ho Ho'.
  destruct e; unfold_members; destruct w as [[ctx v op cn u hn p t eps ua hd] q o];
    cbn in *; subst op;
    try (exfalso; revert Ho'; break_goal; cbn; discriminate).
  exists ec. revert Ho'. destruct (failed ec); cbn; [discriminate|].
  destruct cn; cbn; [auto | discriminate].
Qed.

(** X6. [m_connecting] is set by one event only: a [do_connect] that finds
    the machine neither open nor connecting, parses its URL and accepts
    its scheme. *)
Theorem connecting_only_by_accepted_connect (e : event) (w : world) :
  m_connecting (self w) = false ->
  m_connecting (self (step e w)) = true ->
  exists url, e = call_do_connect url /\
              m_open (self w) = false /\
              failed (snd (parse_url_components url)) = false /\
              seen (step e w) =
                seen w ++ [started (resolver_async_resolve
                                      (snd (fst (fst (fst (parse_url_components url))))))].
Proof.
  intros Hc Hc'. pose proof Hc' as Hc2. rewrite step_self in Hc2.
  destruct e; unfold_members; destruct w as [[ctx v op cn u hn p t eps ua hd] q o];
    cbn in *; subst cn;
    try (exfalso; revert Hc2; break_goal; cbn; discriminate).
  exists url. split; [reflexivity|]. clear Hc2. revert Hc'.
  destruct op; cbn; [discriminate|].
  destruct (parse_url_components url) as [[[[[proto au] host] port] path] pec].
  cbn. destruct (failed pec); cbn; [discriminate|].
  destruct (String.eqb proto "ws"); cbn.
  - destruct (String.eqb path ""); cbn; auto.
  - destruct (String.eqb proto "wss"), ctx; cbn; try discriminate;
      destruct (String.eqb path ""); cbn; auto.
Qed.

(** ** close() *)

(** X7. A second close() does nothing: the flags are already clear, so no
    second close frame is sent, whatever completions arrived in between,
    as long as no new connect was started. *)
Theorem close_twice_sends_one_frame (w : world) (es : list event) :
  Forall (fun e => is_connect_call e = false) es ->
  let w1 := run es (step call_close w) in
  step call_close w1 = w1.
Proof.
  intros Hes w1.
  assert (Hp : phase_of (self w1) = idle_or_closed).
  { apply run_stays_closed; [exact Hes|]. rewrite step_self. apply close_phase. }
  destruct w1 as [s q o]. unfold phase_of in Hp. unfold_members.
  destruct s as [ctx v [|] [|] u hn p t eps ua hd]; cbn in *;
    try discriminate Hp. reflexivity.
Qed.

(** ** Failures of the connect stages *)

(** X8. A resolve or TCP-connect completion with an error posts the
    connect handler with that very error (unlike the TLS handshake, whose
    error is replaced), clears [m_connecting], starts no further
    operation, and leaves a connecting machine Idle. *)
Theorem resolve_and_connect_errors_are_forwarded
  (w : world) (ec : error_code) (addresses : list address) :
  failed ec = true ->
  let failure :=
    mk_world (set_connecting false (self w))
      (posted w ++ [bind_connect_handler (m_connect_handler (self w)) ec])
      (seen w) in
  step (complete_resolve ec addresses) w = failure /\
  step (complete_tcp_connect ec) w = failure /\
  (phase_of (self w) = connecting_phase -> phase_of (self failure) = idle_or_closed).
Proof.
  intros Hec failure. unfold failure. repeat split.
  - destruct w as [s q o]. unfold_members. cbn. rewrite Hec. reflexivity.
  - destruct w as [s q o]. unfold_members. cbn. rewrite Hec. reflexivity.
  - unfold phase_of. cbn. destruct (self w) as [ctx v [|] [|] u hn p t eps ua hd];
      cbn; congruence.
Qed.

(** X9. When the URL does not parse, [do_connect] posts the parser's error
    and starts nothing; the machine stays Idle and keeps its stream, host
    and port, but [m_url] and [m_target] have already been overwritten
    with the URL and with whatever path the parser returned. *)
Theorem unparsable_url_is_rejected
  (w : world) (url proto auth host path : string) (port : Z) (pec : error_code) :
  phase_of (self w) = idle_or_closed ->
  parse_url_components url = (proto, auth, host, port, path, pec) ->
  failed pec = true ->
  let w1 := step (call_do_connect url) w in
  w1 = mk_world (set_target path (set_url url (self w)))
         (posted w ++ [bind_connect_handler (m_connect_handler (self w)) pec])
         (seen w) /\
  phase_of (self w1) = idle_or_closed.
Proof.
  intros Hp Hparse Hec w1.
  assert (E : w1 = mk_world (set_target path (set_url url (self w)))
         (posted w ++ [bind_connect_handler (m_connect_handler (self w)) pec])
         (seen w)).
  { unfold w1. destruct w as [s q o]. unfold phase_of in Hp. unfold_members.
    destruct s as [ctx v [|] [|] u hn p t eps ua hd]; cbn in *;
      try discriminate Hp.
    rewrite Hparse. cbn. rewrite Hec. reflexivity. }
  split; [exact E|]. rewrite E. exact Hp.
Qed.

(** X10. A URL that parses but whose scheme is neither "ws" nor "wss", or
    is "wss" while no TLS context was given, makes [do_connect] post
    [no_protocol_option] and start nothing: the machine stays Idle, the
    stream variant is not replaced, and [m_target] holds the parsed path
    as it is (an empty path is not turned into "/"). *)
Theorem unsupported_scheme_is_rejected
  (w : world) (url proto auth host path : string) (port : Z) (pec : error_code) :
  phase_of (self w) = idle_or_closed ->
  parse_url_components url = (proto, auth, host, port, path, pec) ->
  failed pec = false ->
  proto <> "ws"%string ->
  proto <> "wss"%string \/ m_ssl_context (self w) = None ->
  let w1 := step (call_do_connect url) w in
  w1 = mk_world (set_target path (set_url url (self w)))
         (posted w ++ [bind_connect_handler (m_connect_handler (self w))
                         no_protocol_option])
         (seen w) /\
  phase_of (self w1) = idle_or_closed.
Proof.
  intros Hp Hparse Hec Hws Hwss w1.
  apply String.eqb_neq in Hws.
  assert (E : w1 = mk_world (set_target path (set_url url (self w)))
         (posted w ++ [bind_connect_handler (m_connect_handler (self w))
                         no_protocol_option])
         (seen w)).
  { unfold w1. destruct w as [s q o]. unfold phase_of in Hp. unfold_members.
    destruct s as [ctx v [|] [|] u hn p t eps ua hd]; cbn in *;
      try discriminate Hp.
    rewrite Hparse. cbn. rewrite Hec. cbn. rewrite Hws.
    destruct Hwss as [Hwss | ->].
    - apply String.eqb_neq in Hwss. rewrite Hwss. reflexivity.
    - destruct (String.eqb proto "wss"); reflexivity. }
  split; [exact E|]. rewrite E. exact Hp.
Qed.

(** ** The upgrade request *)

Lemma plain_tcp_connected (w : world) (ec : error_code) :
  failed ec = false ->
  m_stream (self w) = stream_type ->
  step (complete_tcp_connect ec) w =
    mk_world (self w) (posted w) (seen w ++ [started (upgrade_request (self w))]).
Proof.
  intros Hec Hv. destruct w as [s q o]. unfold_members.
  destruct s as [ctx v op cn u hn p t eps ua hd]. cbn in *. subst v.
  rewrite Hec. reflexivity.
Qed.

Lemma tls_handshake_done (w : world) (ec : error_code) :
  failed ec = false ->
  step (complete_ssl_handshake ec) w =
    mk_world (self w) (posted w) (seen w ++ [started (upgrade_request (self w))]).
Proof.
  intros Hec. destruct w as [s q o]. unfold_members. cbn in *.
  rewrite Hec. reflexivity.
Qed.

Lemma handshake_success_opens (w : world) (ec : error_code) :
  failed ec = false ->
  m_connecting (self w) = true ->
  step (complete_handshake ec) w =
    mk_world (set_open true (set_connecting false (self w)))
      (posted w ++ [bind_connect_handler (m_connect_handler (self w)) success])
      (seen w).
Proof.
  intros Hec Hc. destruct w as [s q o]. unfold_members. cbn in *.
  rewrite Hec, Hc. reflexivity.
Qed.

(** X11. The user agent given to [set_user_agent] is the one the next
    upgrade request carries, replacing any earlier one; the empty string
    means the request carries no user-agent field at all. *)
Theorem user_agent_decorates_next_upgrade
  (w : world) (user_agent : string) (ec : error_code) :
  failed ec = false ->
  let w1 := run [call_set_user_agent user_agent; complete_ssl_handshake ec] w in
  seen w1 = seen w ++ [started (ws_async_handshake (m_hostname (self w))
                                  (m_target (self w))
                                  (if String.eqb user_agent ""
                                   then None else Some user_agent))] /\
  posted w1 = posted w /\
  self w1 = set_user_agent_field user_agent (self w).
Proof.
  intros Hec w1. unfold w1. rewrite !run_cons.
  rewrite (tls_handshake_done _ ec Hec).
  destruct w as [s q o]. cbn. repeat split.
Qed.

(** ** Whole connect attempts *)

Lemma connect_call_accepted
  (s : websocket_stream) (q : list task) (o : list observation)
  (url proto auth host path : string) (port : Z)
  (pec : error_code) (v : stream_variant) :
  phase_of s = idle_or_closed ->
  parse_url_components url = (proto, auth, host, port, path, pec) ->
  failed pec = false ->
  (proto = "ws"%string /\ v = stream_type) \/
  (proto = "wss"%string /\ exists c, m_ssl_context s = Some c /\ v = ssl_stream_type c) ->
  step (call_do_connect url) (mk_world s q o) =
    mk_world (attempt_started s v url host port path) q
      (o ++ [started (resolver_async_resolve host)]).
Proof.
  intros Hp Hparse Hec Hv. unfold_step. cbn [self posted seen].
  rewrite (do_connect_accepted s url proto auth host path port pec v Hp Hparse Hec Hv).
  reflexivity.
Qed.

(** X12. A "ws" attempt in which every stage succeeds: the host is
    resolved, the TCP connect is started over the candidates in reverse,
    the upgrade is requested for the URL's host and its defaulted path,
    no TLS operation is involved, the connect handler is posted once, with
    no error, and the machine is Open. *)
Theorem plain_attempt_reaches_open
  (s : websocket_stream) (q : list task) (o : list observation)
  (url auth host path : string) (port : Z)
  (pec rec tec hec : error_code) (addresses : list address) :
  phase_of s = idle_or_closed ->
  parse_url_components url = ("ws"%string, auth, host, port, path, pec) ->
  failed pec = false -> failed rec = false ->
  failed tec = false -> failed hec = false ->
  let w1 := run [call_do_connect url; complete_resolve rec addresses;
                 complete_tcp_connect tec; complete_handshake hec]
              (mk_world s q o) in
  let range :=
    rev (map (fun a => mk_endpoint a (if port <=? 0 then 443 else to_uint16 port))
           addresses) in
  seen w1 = o ++ [started (resolver_async_resolve host);
                  started (asio_async_connect range);
                  started (ws_async_handshake host
                             (if String.eqb path "" then "/"%string else path)
                             (if String.eqb (m_user_agent s) ""
                              then None else Some (m_user_agent s)))] /\
  posted w1 = q ++ [bind_connect_handler (m_connect_handler s) success] /\
  phase_of (self w1) = open_phase /\
  m_stream (self w1) = stream_type.
Proof.
  intros Hp Hparse Hpec Hrec Htec Hhec w1 range. unfold w1. rewrite !run_cons.
  rewrite (connect_call_accepted s q o url "ws" auth host path port pec stream_type
             Hp Hparse Hpec) by (left; split; reflexivity).
  rewrite (on_resolve_success _ rec addresses Hrec). cbn [self posted seen].
  rewrite (plain_tcp_connected _ tec Htec) by reflexivity. cbn [self posted seen].
  rewrite (handshake_success_opens _ hec Hhec) by reflexivity.
  cbn. fold range. rewrite <- !app_assoc. repeat split.
Qed.

(** X13. A "wss" attempt in which every stage succeeds: after the TCP
    connect the host name is set for SNI, the TLS handshake runs, and only
    then is the upgrade requested, on the TLS stream built from the
    configured context; the connect handler is posted once, with no
    error, and the machine is Open. *)
Theorem secure_attempt_reaches_open
  (s : websocket_stream) (q : list task) (o : list observation)
  (url auth host path : string) (port : Z) (ctx : ssl_context)
  (pec rec tec sec hec : error_code) (addresses : list address) :
  phase_of s = idle_or_closed ->
  m_ssl_context s = Some ctx ->
  parse_url_components url = ("wss"%string, auth, host, port, path, pec) ->
  failed (set_host_name host) = false ->
  failed pec = false -> failed rec = false -> failed tec = false ->
  failed sec = false -> failed hec = false ->
  let w1 := run [call_do_connect url; complete_resolve rec addresses;
                 complete_tcp_connect tec; complete_ssl_handshake sec;
                 complete_handshake hec]
              (mk_world s q o) in
  let range :=
    rev (map (fun a => mk_endpoint a (if port <=? 0 then 443 else to_uint16 port))
           addresses) in
  seen w1 = o ++ [started (resolver_async_resolve host);
                  started (asio_async_connect range);
                  started (ssl_set_host_name host);
                  started ssl_async_handshake;
                  started (ws_async_handshake host
                             (if String.eqb path "" then "/"%string else path)
                             (if String.eqb (m_user_agent s) ""
                              then None else Some (m_user_agent s)))] /\
  posted w1 = q ++ [bind_connect_handler (m_connect_handler s) success] /\
  phase_of (self w1) = open_phase /\
  m_stream (self w1) = ssl_stream_type ctx.
Proof.
  intros Hp Hctx Hparse Hsni Hpec Hrec Htec Hsec Hhec w1 range.
  unfold w1. rewrite !run_cons.
  rewrite (connect_call_accepted s q o url "wss" auth host path port pec
             (ssl_stream_type ctx) Hp Hparse Hpec)
    by (right; split; [reflexivity | exists ctx; split; [exact Hctx | reflexivity]]).
  rewrite (on_resolve_success _ rec addresses Hrec). cbn [self posted seen].
  rewrite (tcp_connected_secure _ tec ctx Htec) by reflexivity.
  cbn [self posted seen attempt_started m_hostname set_endpoints].
  rewrite Hsni.
  rewrite (tls_handshake_done _ sec Hsec). cbn [self posted seen].
  rewrite (handshake_success_opens _ hec Hhec) by reflexivity.
  cbn. fold range. rewrite <- !app_assoc. repeat split.
Qed.

(** X14. close() cancels nothing: when it is called right after a "ws"
    connect was started, the completions of that attempt still drive the
    TCP connect and the upgrade request, on a machine that is already
    Closed; only the final handshake success is turned into
    [operation_aborted], and the machine stays Closed. *)
Theorem close_does_not_stop_the_stages
  (s : websocket_stream) (q : list task) (o : list observation)
  (url auth host path : string) (port : Z)
  (pec rec tec hec : error_code) (addresses : list address) :
  phase_of s = idle_or_closed ->
  parse_url_components url = ("ws"%string, auth, host, port, path, pec) ->
  failed pec = false -> failed rec = false ->
  failed tec = false -> failed hec = false ->
  let w1 := run [call_do_connect url; call_close;
                 complete_resolve rec addresses;
                 complete_tcp_connect tec; complete_handshake hec]
              (mk_world s q o) in
  let range :=
    rev (map (fun a => mk_endpoint a (if port <=? 0 then 443 else to_uint16 port))
           addresses) in
  seen w1 = o ++ [started (resolver_async_resolve host);
                  started (ws_async_close stream_type);
                  started (asio_async_connect range);
                  started (ws_async_handshake host
                             (if String.eqb path "" then "/"%string else path)
                             (if String.eqb (m_user_agent s) ""
                              then None else Some (m_user_agent s)))] /\
  posted w1 = q ++ [bind_connect_handler (m_connect_handler s) operation_aborted] /\
  phase_of (self w1) = idle_or_closed.
Proof.
  intros Hp Hparse Hpec Hrec Htec Hhec w1 range. unfold w1. rewrite !run_cons.
  rewrite (connect_call_accepted s q o url "ws" auth host path port pec stream_type
             Hp Hparse Hpec) by (left; split; reflexivity).
  assert (Ec : forall q' o',
             step call_close (mk_world (attempt_started s stream_type url host port path) q' o')
             = mk_world (set_connecting false
                           (set_open false (attempt_started s stream_type url host port path)))
                 q' (o' ++ [started (ws_async_close stream_type)])).
  { intros. reflexivity. }
  rewrite Ec.
  rewrite (on_resolve_success _ rec addresses Hrec). cbn [self posted seen].
  rewrite (plain_tcp_connected _ tec Htec) by reflexivity. cbn [self posted seen].
  rewrite (handshake_success_recheck _ hec Hhec) by reflexivity.
  cbn. fold range. rewrite <- !app_assoc. repeat split.
Qed.

(** X15. The port of the URL is narrowed to 16 bits after the default is
    applied: the stored port is 443 for a port that is zero or negative and
    the port modulo 65536 otherwise, so it always lies in 0..65535 (and is
    0 for a positive multiple of 65536).  After the resolve, there is one
    candidate endpoint per resolved address, each with that port, stored in
    the resolver's order and handed to the connect in reverse. *)
Theorem candidates_carry_the_narrowed_port
  (s : websocket_stream) (q : list task) (o : list observation)
  (url proto auth host path : string) (port : Z)
  (pec rec : error_code) (v : stream_variant) (addresses : list address) :
  phase_of s = idle_or_closed ->
  parse_url_components url = (proto, auth, host, port, path, pec) ->
  failed pec = false ->
  (proto = "ws"%string /\ v = stream_type) \/
  (proto = "wss"%string /\ exists c, m_ssl_context s = Some c /\ v = ssl_stream_type c) ->
  failed rec = false ->
  let w1 := run [call_do_connect url; complete_resolve rec addresses]
              (mk_world s q o) in
  let p := if port <=? 0 then 443 else port mod 65536 in
  0 <= p < 65536 /\
  m_port (self w1) = p /\
  m_endpoints (self w1) = map (fun a => mk_endpoint a p) addresses /\
  seen w1 = o ++ [started (resolver_async_resolve host);
                  started (asio_async_connect
                             (rev (map (fun a => mk_endpoint a p) addresses)))] /\
  posted w1 = q.
Proof.
  intros Hp Hparse Hpec Hv Hrec w1 p. unfold w1. rewrite !run_cons.
  rewrite (connect_call_accepted s q o url proto auth host path port pec v
             Hp Hparse Hpec Hv).
  rewrite (on_resolve_success _ rec addresses Hrec).
  cbn. unfold to_uint16. change (2 ^ 16) with 65536. fold p.
  rewrite <- app_assoc. repeat split.
  - unfold p. destruct (port <=? 0); [lia | apply Z.mod_pos_bound; lia].
  - unfold p. destruct (port <=? 0); [lia | apply Z.mod_pos_bound; lia].
Qed.

(** X16. An attempt that has ended can be retried at once: after close()
    or after a stage completed with an error the machine is Idle, and a
    following [do_connect] with an acceptable URL is not rejected with
    [already_started] but starts resolving the new host. *)
Theorem ended_attempt_can_be_retried
  (w : world) (e : event)
  (url proto auth host path : string) (port : Z)
  (pec : error_code) (v : stream_variant) :
  phase_of (self w) = connecting_phase ->
  ends_attempt e = true ->
  parse_url_components url = (proto, auth, host, port, path, pec) ->
  failed pec = false ->
  (proto = "ws"%string /\ v = stream_type) \/
  (proto = "wss"%string /\
   exists c, m_ssl_context (self w) = Some c /\ v = ssl_stream_type c) ->
  let w1 := step e w in
  let w2 := step (call_do_connect url) w1 in
  phase_of (self w1) = idle_or_closed /\
  phase_of (self w2) = connecting_phase /\
  posted w2 = posted w1 /\
  seen w2 = seen w1 ++ [started (resolver_async_resolve host)] /\
  m_hostname (self w2) = host.
Proof.
  intros Hp He Hparse Hpec Hv w1 w2.
  assert (H1 : phase_of (self w1) = idle_or_closed).
  { unfold w1. rewrite step_self. unfold phase_of in *.
    destruct e; try discriminate He; cbn in He; unfold_members;
      destruct (self w) as [ctx sv [|] [|] u hn p t eps ua hd]; cbn in *;
      try discriminate Hp; try rewrite He; reflexivity. }
  assert (Hctx : m_ssl_context (self w1) = m_ssl_context (self w)).
  { unfold w1. rewrite step_self. apply dispatch_ssl_context. }
  assert (Hv' : (proto = "ws"%string /\ v = stream_type) \/
                (proto = "wss"%string /\
                 exists c, m_ssl_context (self w1) = Some c /\ v = ssl_stream_type c)).
  { rewrite Hctx. exact Hv. }
  unfold w2. clearbody w1. destruct w1 as [s1 q1 o1]. cbn [self] in *.
  rewrite (connect_call_accepted s1 q1 o1 url proto auth host path port pec v
             H1 Hparse Hpec Hv').
  cbn. repeat split. exact H1.
Qed.

(** ** The I/O proxy while Open *)

Lemma error_eqb_eq (a b : error_code) : Error.eqb a b = true -> a = b.
Proof.
  destruct a as [va ca], b as [vb cb]. unfold Error.eqb. cbn.
  intros H. apply andb_prop in H. destruct H as [Hv Hc].
  apply Z.eqb_eq in Hv. subst vb.
  destruct ca, cb; cbn in Hc; try discriminate Hc; reflexivity.
Qed.

(** X17. While the machine is Open every completion is forwarded with its
    error code and byte count.  Only a read carrying exactly
    [websocket::error::closed] closes the machine: a read with any other
    error, and a write with any error at all (the close sentinel
    included), leave it Open. *)
Theorem open_machine_forwards_and_stays_open
  (w : world) (ec : error_code) (n : N) (h : handler) :
  phase_of (self w) = open_phase ->
  step (complete_write ec n h) w =
    mk_world (self w) (posted w ++ [bind_write_handler h ec n]) (seen w) /\
  posted (step (complete_read ec n h) w) = posted w ++ [bind_read_handler h ec n] /\
  seen (step (complete_read ec n h) w) = seen w /\
  (ec <> closed -> self (step (complete_read ec n h) w) = self w).
Proof.
  intros Hp. destruct w as [s q o]. unfold phase_of in Hp. unfold_members.
  destruct s as [ctx v [|] [|] u hn p t eps ua hd]; cbn in *; try discriminate Hp.
  split; [reflexivity|].
  destruct (Error.eqb ec closed) eqn:E; cbn; repeat split.
  intros Hne. exfalso. apply Hne. now apply error_eqb_eq.
Qed.

(** ** A late completion of a superseded attempt *)

(** X18. The re-check in [on_handshake] reads [m_connecting] only.  When
    close() is followed by an accepted [do_connect] while the first
    attempt's handshake is still outstanding, a late success of that
    handshake finds the flag set by the second attempt: the connect
    handler is posted with no error and the machine is Open although the
    second attempt has only started to resolve. *)
Theorem late_success_opens_a_restarted_machine
  (w : world) (url auth host path : string) (port : Z) (pec hec : error_code) :
  phase_of (self w) = connecting_phase ->
  parse_url_components url = ("ws"%string, auth, host, port, path, pec) ->
  failed pec = false -> failed hec = false ->
  let w1 := run [call_close; call_do_connect url; complete_handshake hec] w in
  phase_of (self w1) = open_phase /\
  posted w1 = posted w ++ [bind_connect_handler (m_connect_handler (self w)) success] /\
  seen w1 = seen w ++ [started (ws_async_close (m_stream (self w)));
                       started (resolver_async_resolve host)].
Proof.
  intros Hp Hparse Hpec Hhec w1. unfold w1. rewrite !run_cons.
  assert (Ec : step call_close w =
               mk_world (set_connecting false (set_open false (self w))) (posted w)
                 (seen w ++ [started (ws_async_close (m_stream (self w)))])).
  { destruct w as [s q o]. unfold phase_of in Hp. unfold_members.
    destruct s as [ctx v [|] [|] u hn p t eps ua hd]; cbn in *;
      try discriminate Hp. reflexivity. }
  rewrite Ec.
  rewrite (connect_call_accepted _ _ _ url "ws" auth host path port pec stream_type)
    by first [ exact Hparse | exact Hpec | (left; split; reflexivity)
             | (unfold phase_of in *;
                destruct (self w) as [ctx v [|] [|] u hn p t eps ua hd];
                cbn in *; congruence) ].
  rewrite (handshake_success_opens _ hec Hhec) by reflexivity.
  cbn. rewrite <- app_assoc. repeat split.
Qed.

(** ** The single connect-handler slot *)


(** ** A failed SNI setup reported with an empty error queue *)

Lemma to_int_multiple (k : Z) : to_int (k * 2 ^ 32) = 0.
Proof.
  unfold to_int. rewrite Z.add_comm, Z.mod_add by lia. reflexivity.
Qed.

(** C6. When setting the SNI host name fails in a "wss" attempt, the error
    [ssl::set_host_name] returned is discarded and the code posted to the
    connect handler is built from a new [ERR_get_error()].  If that call
    yields 0 (an empty OpenSSL error queue) or any multiple of 2^32, the
    connect handler is posted with the value 0 in the ssl category, a code
    that tests as no error, although no TLS handshake was started and the
    machine has left the connecting phase for Idle. *)
Theorem sni_failure_posts_a_code_that_tests_as_success
  (s : websocket_stream) (q : list task) (o : list observation)
  (url auth host path : string) (port : Z) (ctx : ssl_context)
  (pec rec tec : error_code) (addresses : list address) :
  phase_of s = idle_or_closed ->
  m_ssl_context s = Some ctx ->
  parse_url_components url = ("wss"%string, auth, host, port, path, pec) ->
  failed pec = false -> failed rec = false -> failed tec = false ->
  failed (set_host_name host) = true ->
  to_int ERR_get_error = 0 ->
  let w1 := run [call_do_connect url; complete_resolve rec addresses;
                 complete_tcp_connect tec] (mk_world s q o) in
  let range :=
    rev (map (fun a => mk_endpoint a (if port <=? 0 then 443 else to_uint16 port))
           addresses) in
  exists reported : error_code,
    posted w1 = q ++ [bind_connect_handler (m_connect_handler s) reported] /\
    reported = mk_error 0 ssl_category /\
    failed reported = false /\
    seen w1 = o ++ [started (resolver_async_resolve host);
                    started (asio_async_connect range);
                    started (ssl_set_host_name host)] /\
    phase_of (self w1) = idle_or_closed.
Proof.
  intros Hp Hctx Hparse Hpec Hrec Htec Hsni Herr w1 range.
  exists (mk_error 0 ssl_category).
  unfold w1. rewrite !run_cons.
  rewrite (connect_call_accepted s q o url "wss" auth host path port pec
             (ssl_stream_type ctx) Hp Hparse Hpec)
    by (right; split; [reflexivity | exists ctx; split; [exact Hctx | reflexivity]]).
  rewrite (on_resolve_success _ rec addresses Hrec). cbn [self posted seen].
  rewrite (tcp_connected_secure _ tec ctx Htec) by reflexivity.
  cbn [self posted seen attempt_started m_hostname set_endpoints].
  rewrite Hsni, Herr. cbn. fold range. rewrite <- !app_assoc. repeat split.
Qed.

(** ** The destructor *)

(** X20. Destroying the object while it is open or connecting clears both
    flags and then throws [bad_weak_ptr] out of the destructor, before any
    close is started and without posting anything; destroying an object
    that is Idle or Closed does nothing.  After an explicit [close()] the
    destructor is therefore harmless. *)
Theorem destructor_throws_unless_closed (s : websocket_stream) :
  destruct_stream s =
    match phase_of s with
    | idle_or_closed => (returned tt, s, [])
    | _ => (thrown bad_weak_ptr, set_connecting false (set_open false s), [])
    end /\
  result destruct_stream (state_after close s) = returned tt /\
  issued destruct_stream (state_after close s) = [].
Proof.
  unfold phase_of. unfold_members.
  unfold destruct_stream, shared_from_this, bind, read, write, throw, ret, emit.
  destruct s as [ctx v [|] [|] u hn p t eps ua hd]; cbn; repeat split.
Qed.

End Properties.

(** * The properties at concrete inputs *)

Lemma handshake_success_after_close_is_aborted_witness :
  failed success = false /\
  Forall (fun e => is_connect_call e = false) [complete_close success] /\
  let w1 := run sample_parse sni_accepted 0 [complete_close success]
              (step sample_parse sni_accepted 0 call_close
                 (world_of handshaking_stream)) in
  let w2 := step sample_parse sni_accepted 0 (complete_handshake success) w1 in
  phase_of handshaking_stream = connecting_phase /\
  posted w2 = [bind_connect_handler 7%nat operation_aborted] /\
  phase_of (self w2) <> open_phase.
Proof.
  split; [reflexivity|]. split; [repeat constructor|].
  assert (F : Forall (fun e => is_connect_call e = false) [complete_close success])
    by repeat constructor.
  destruct (handshake_success_after_close_is_aborted sample_parse sni_accepted 0
              (world_of handshaking_stream) [complete_close success] success
              eq_refl F)
    as (H1 & H2 & H3 & H4 & H5).
  split; [reflexivity|]. split; [exact H2 | exact H5].
Defined.

Lemma handshake_error_after_close_is_forwarded_witness :
  failed (mk_error 20 http_category) = true /\
  Forall (fun e => is_connect_call e = false) [complete_close success] /\
  let w1 := run sample_parse sni_accepted 0 [complete_close success]
              (step sample_parse sni_accepted 0 call_close
                 (world_of handshaking_stream)) in
  let w2 := step sample_parse sni_accepted 0
              (complete_handshake (mk_error 20 http_category)) w1 in
  exists t : task,
    posted w2 = posted w1 ++ [t] /\
    t = bind_connect_handler 7%nat (mk_error 20 http_category) /\
    (mk_error 20 http_category <> operation_aborted ->
     t <> bind_connect_handler 7%nat operation_aborted).
Proof.
  split; [reflexivity|]. split; [repeat constructor|].
  assert (F : Forall (fun e => is_connect_call e = false) [complete_close success])
    by repeat constructor.
  destruct (handshake_error_after_close_is_forwarded sample_parse sni_accepted 0
              (world_of handshaking_stream) [complete_close success]
              (mk_error 20 http_category) eq_refl F)
    as (H1 & H2 & H3 & H4).
  exact H2.
Defined.

Lemma completion_dropped_when_not_open_witness :
  m_open (self (world_of handshaking_stream)) = false /\
  step sample_parse sni_accepted 0 (complete_read success 16 3%nat)
    (world_of handshaking_stream) = world_of handshaking_stream /\
  step sample_parse sni_accepted 0 (complete_write success 16 4%nat)
    (world_of handshaking_stream) = world_of handshaking_stream.
Proof.
  split; [reflexivity|].
  destruct (completion_dropped_when_not_open sample_parse sni_accepted 0
              (world_of handshaking_stream) success 16 3%nat eq_refl)
    as (_ & _ & Hr & _).
  destruct (completion_dropped_when_not_open sample_parse sni_accepted 0
              (world_of handshaking_stream) success 16 4%nat eq_refl)
    as (_ & _ & _ & Hw & _).
  split; [exact Hr | exact Hw].
Defined.

Lemma clean_close_forwards_exactly_once_witness :
  phase_of (self (world_of open_stream)) = open_phase /\
  Forall (fun e => is_io_completion e = true)
    [complete_write success 5 4%nat; complete_read success 9 3%nat] /\
  let w1 := step sample_parse sni_accepted 0 (complete_read closed 0 3%nat)
              (world_of open_stream) in
  phase_of (self w1) = idle_or_closed /\
  invocations w1 = [] /\
  invocations
    (drain sample_parse sni_accepted 0
       (run sample_parse sni_accepted 0
          [complete_write success 5 4%nat; complete_read success 9 3%nat] w1))
  = [bind_read_handler 3%nat closed 0].
Proof.
  split; [reflexivity|]. split; [repeat constructor|].
  assert (F : Forall (fun e => is_io_completion e = true)
                [complete_write success 5 4%nat; complete_read success 9 3%nat])
    by repeat constructor.
  destruct (clean_close_forwards_exactly_once sample_parse sni_accepted 0
              (world_of open_stream) 0 3%nat
              [complete_write success 5 4%nat; complete_read success 9 3%nat]
              eq_refl F)
    as (H1 & H2 & H3 & H4 & H5 & H6).
  split; [exact H2|]. split; [reflexivity | exact H6].
Defined.

Lemma ssl_handshake_failure_is_sanitized_witness :
  failed (mk_error 167772294 ssl_category) = true /\
  let w := world_of (set_stream (ssl_stream_type 1%nat) handshaking_stream) in
  let w1 := step sample_parse sni_accepted 0
              (complete_ssl_handshake (mk_error 167772294 ssl_category)) w in
  posted w1 = [bind_connect_handler 7%nat operation_aborted] /\
  phase_of (self w1) = idle_or_closed.
Proof.
  split; [reflexivity|].
  destruct (ssl_handshake_failure_is_sanitized sample_parse sni_accepted 0
              (world_of (set_stream (ssl_stream_type 1%nat) handshaking_stream))
              (mk_error 167772294 ssl_category) eq_refl)
    as (H1 & H2 & H3 & H4 & H5).
  split; [exact H1 | exact (H5 eq_refl)].
Defined.

Lemma secure_attempt_configures_sni_first_witness :
  phase_of fresh_stream = idle_or_closed /\
  m_ssl_context fresh_stream = Some 1%nat /\
  sample_parse "wss://tracker.example" =
    ("wss"%string, ""%string, "tracker.example"%string, -1, ""%string, success) /\
  failed success = false /\
  let w1 := run sample_parse sni_refused sample_openssl_error
              [call_do_connect "wss://tracker.example";
               complete_resolve success [addr_A; addr_B];
               complete_tcp_connect success] (world_of fresh_stream) in
  seen w1 = [started (resolver_async_resolve "tracker.example");
             started (asio_async_connect
                        [mk_endpoint addr_B 443; mk_endpoint addr_A 443]);
             started (ssl_set_host_name "tracker.example")] /\
  posted w1 = [bind_connect_handler 7%nat (mk_error 336130367 ssl_category)] /\
  phase_of (self w1) = idle_or_closed.
Proof.
  do 4 (split; [reflexivity|]).
  exact (secure_attempt_configures_sni_first sample_parse sni_refused
           sample_openssl_error fresh_stream [] []
           "wss://tracker.example" "" "tracker.example" "" (-1) 1%nat
           success success success [addr_A; addr_B]
           eq_refl eq_refl eq_refl eq_refl eq_refl eq_refl).
Defined.

Lemma handshake_target_defaults_witness :
  phase_of fresh_stream = idle_or_closed /\
  sample_parse "wss://tracker.example" =
    ("wss"%string, ""%string, "tracker.example"%string, -1, ""%string, success) /\
  failed success = false /\
  ("wss"%string = "wss"%string /\ m_ssl_context fresh_stream <> None) /\
  let s' := state_after (do_connect sample_parse "wss://tracker.example") fresh_stream in
  m_hostname s' = "tracker.example"%string /\
  m_target s' = "/"%string /\
  m_port s' = 443.
Proof.
  split; [reflexivity|]. split; [reflexivity|]. split; [reflexivity|].
  assert (Hctx : "wss"%string = "wss"%string /\ m_ssl_context fresh_stream <> None)
    by (split; [reflexivity | discriminate]).
  split; [exact Hctx|].
  destruct (handshake_target_defaults sample_parse fresh_stream
              "wss://tracker.example" "wss" "" "tracker.example" "" (-1) success
              eq_refl eq_refl eq_refl (or_intror Hctx))
    as (_ & Hh & _ & _ & Ht & Hp & _).
  split; [exact Hh|]. split; [exact (Ht eq_refl) | apply Hp; lia].
Defined.

Lemma tcp_connect_tries_candidates_in_reverse_witness :
  failed success = false /\
  let w1 := step sample_parse sni_accepted 0
              (complete_resolve success [addr_A; addr_B; addr_C])
              (world_of handshaking_stream) in
  let range := [mk_endpoint addr_C 443; mk_endpoint addr_B 443; mk_endpoint addr_A 443] in
  seen w1 = [started (asio_async_connect range)] /\
  map ep_address range = [addr_C; addr_B; addr_A] /\
  connect_attempts only_B_accepts range =
    ([mk_endpoint addr_C 443; mk_endpoint addr_B 443], true) /\
  connect_attempts (fun _ => false) range = (range, false).
Proof.
  split; [reflexivity|].
  destruct (tcp_connect_tries_candidates_in_reverse sample_parse sni_accepted 0
              (world_of handshaking_stream) success [addr_A; addr_B; addr_C]
              only_B_accepts eq_refl)
    as (H1 & _ & _ & H4 & _).
  split; [exact H1|]. split; [exact H4|]. split; reflexivity.
Defined.

(** ** Executions of the model *)

(** A plain attempt that succeeds end to end: one resolve, one connect over
    the reversed candidates, one upgrade, and the connect handler called
    once with no error; the machine is Open. *)
Example plain_attempt_opens :
  let w := drain sample_parse sni_accepted 0
             (run sample_parse sni_accepted 0
                [call_do_connect "ws://tracker.example";
                 complete_resolve success [addr_A; addr_B];
                 complete_tcp_connect success;
                 complete_handshake success] (world_of fresh_stream)) in
  phase_of (self w) = open_phase /\
  seen w = [started (resolver_async_resolve "tracker.example");
            started (asio_async_connect
                       [mk_endpoint addr_B 443; mk_endpoint addr_A 443]);
            started (ws_async_handshake "tracker.example" "/" None);
            invoked (bind_connect_handler 7%nat success)].
Proof. split; reflexivity. Qed.

(** A secure scheme without a TLS context is refused before anything is
    started. *)
Example wss_without_context_is_refused :
  let w := step sample_parse sni_accepted 0 (call_do_connect "wss://tracker.example")
             (world_of (construct None fresh_stream)) in
  posted w = [bind_connect_handler 7%nat no_protocol_option] /\
  seen w = [] /\ phase_of (self w) = idle_or_closed.
Proof. repeat split. Qed.

(** The re-check of [on_handshake] looks at [m_connecting] only: when a new
    attempt was started after close(), a late success of the earlier
    handshake finds the flag set again.  This is why the supersession
    property above is stated for executions without a new connect call. *)
Example late_success_after_reconnect :
  let w := run sample_parse sni_accepted 0
             [call_close; call_do_connect "ws://tracker.example";
              complete_handshake success] (world_of handshaking_stream) in
  phase_of (self w) = open_phase /\
  posted w = [bind_connect_handler 7%nat success].
Proof. split; reflexivity. Qed.

(** ** The further properties at concrete inputs *)

Lemma no_event_throws_witness :
  m_stream fresh_stream = stream_type /\
  result (dispatch sample_parse sni_accepted 0 (complete_tcp_connect success))
    fresh_stream = returned tt /\
  result (do_ssl_handshake sni_accepted 0) fresh_stream = thrown bad_variant_access.
Proof.
  split; [reflexivity|].
  destruct (no_event_throws sample_parse sni_accepted 0
              (complete_tcp_connect success) fresh_stream) as [H1 H2].
  split; [exact H1|]. destruct (H2 eq_refl) as [H3 _]. exact H3.
Defined.

Lemma open_only_by_handshake_success_witness :
  m_open (self (world_of handshaking_stream)) = false /\
  m_open (self (step sample_parse sni_accepted 0 (complete_handshake success)
                  (world_of handshaking_stream))) = true /\
  exists ec, complete_handshake success = complete_handshake ec /\
             failed ec = false /\
             m_connecting (self (world_of handshaking_stream)) = true.
Proof.
  split; [reflexivity|]. split; [reflexivity|].
  exact (open_only_by_handshake_success sample_parse sni_accepted 0
           (complete_handshake success) (world_of handshaking_stream)
           eq_refl eq_refl).
Defined.

Lemma connecting_only_by_accepted_connect_witness :
  m_connecting (self (world_of fresh_stream)) = false /\
  m_connecting (self (step sample_parse sni_accepted 0
                        (call_do_connect "ws://tracker.example")
                        (world_of fresh_stream))) = true /\
  exists url, call_do_connect "ws://tracker.example" = call_do_connect url /\
              m_open (self (world_of fresh_stream)) = false /\
              failed (snd (sample_parse url)) = false /\
              seen (step sample_parse sni_accepted 0
                      (call_do_connect "ws://tracker.example")
                      (world_of fresh_stream)) =
                seen (world_of fresh_stream) ++
                [started (resolver_async_resolve
                            (snd (fst (fst (fst (sample_parse url))))))].
Proof.
  split; [reflexivity|]. split; [reflexivity|].
  exact (connecting_only_by_accepted_connect sample_parse sni_accepted 0
           (call_do_connect "ws://tracker.example") (world_of fresh_stream)
           eq_refl eq_refl).
Defined.

Lemma close_twice_sends_one_frame_witness :
  Forall (fun e => is_connect_call e = false)
    [complete_close success; complete_read success 4 3%nat] /\
  let w1 := run sample_parse sni_accepted 0
              [complete_close success; complete_read success 4 3%nat]
              (step sample_parse sni_accepted 0 call_close (world_of open_stream)) in
  seen w1 = [started (ws_async_close stream_type)] /\
  step sample_parse sni_accepted 0 call_close w1 = w1.
Proof.
  assert (F : Forall (fun e => is_connect_call e = false)
                [complete_close success; complete_read success 4 3%nat])
    by repeat constructor.
  split; [exact F|]. split; [reflexivity|].
  exact (close_twice_sends_one_frame sample_parse sni_accepted 0
           (world_of open_stream)
           [complete_close success; complete_read success 4 3%nat] F).
Defined.

Lemma resolve_and_connect_errors_are_forwarded_witness :
  failed (mk_error 1 netdb_category) = true /\
  phase_of (self (world_of handshaking_stream)) = connecting_phase /\
  let w1 := step sample_parse sni_accepted 0
              (complete_resolve (mk_error 1 netdb_category) [])
              (world_of handshaking_stream) in
  posted w1 = [bind_connect_handler 7%nat (mk_error 1 netdb_category)] /\
  seen w1 = [] /\
  phase_of (self w1) = idle_or_closed.
Proof.
  split; [reflexivity|]. split; [reflexivity|].
  destruct (resolve_and_connect_errors_are_forwarded sample_parse sni_accepted 0
              (world_of handshaking_stream) (mk_error 1 netdb_category) [] eq_refl)
    as (H1 & _ & H3).
  cbv zeta. rewrite H1. split; [reflexivity|]. split; [reflexivity|].
  exact (H3 eq_refl).
Defined.

Lemma unparsable_url_is_rejected_witness :
  phase_of (self (world_of fresh_stream)) = idle_or_closed /\
  sample_parse "tracker" =
    (""%string, ""%string, ""%string, -1, ""%string, mk_error 24 libtorrent_category) /\
  failed (mk_error 24 libtorrent_category) = true /\
  let w1 := step sample_parse sni_accepted 0 (call_do_connect "tracker")
              (world_of fresh_stream) in
  posted w1 = [bind_connect_handler 7%nat (mk_error 24 libtorrent_category)] /\
  m_url (self w1) = "tracker"%string /\
  phase_of (self w1) = idle_or_closed.
Proof.
  do 3 (split; [reflexivity|]).
  destruct (unparsable_url_is_rejected sample_parse sni_accepted 0
              (world_of fresh_stream) "tracker" "" "" "" "" (-1)
              (mk_error 24 libtorrent_category) eq_refl eq_refl eq_refl)
    as [H1 H2].
  cbv zeta. rewrite H1. repeat split.
Defined.

Lemma unsupported_scheme_is_rejected_witness :
  phase_of (self (world_of (construct None fresh_stream))) = idle_or_closed /\
  sample_parse "wss://tracker.example" =
    ("wss"%string, ""%string, "tracker.example"%string, -1, ""%string, success) /\
  "wss"%string <> "ws"%string /\
  m_ssl_context (self (world_of (construct None fresh_stream))) = None /\
  let w1 := step sample_parse sni_accepted 0 (call_do_connect "wss://tracker.example")
              (world_of (construct None fresh_stream)) in
  posted w1 = [bind_connect_handler 7%nat no_protocol_option] /\
  m_target (self w1) = ""%string /\
  phase_of (self w1) = idle_or_closed.
Proof.
  assert (Hne : "wss"%string <> "ws"%string) by discriminate.
  split; [reflexivity|]. split; [reflexivity|]. split; [exact Hne|].
  split; [reflexivity|].
  destruct (unsupported_scheme_is_rejected sample_parse sni_accepted 0
              (world_of (construct None fresh_stream))
              "wss://tracker.example" "wss" "" "tracker.example" "" (-1) success
              eq_refl eq_refl eq_refl Hne (or_intror eq_refl))
    as [H1 H2].
  cbv zeta. rewrite H1. repeat split.
Defined.

Lemma user_agent_decorates_next_upgrade_witness :
  failed success = false /\
  seen (run sample_parse sni_accepted 0
          [call_set_user_agent "libtorrent/2.0"; complete_ssl_handshake success]
          (world_of handshaking_stream)) =
    [started (ws_async_handshake "tracker.example" "/" (Some "libtorrent/2.0"%string))] /\
  seen (run sample_parse sni_accepted 0
          [call_set_user_agent ""; complete_ssl_handshake success]
          (world_of (set_user_agent_field "old" handshaking_stream))) =
    [started (ws_async_handshake "tracker.example" "/" None)].
Proof.
  split; [reflexivity|]. split.
  - exact (proj1 (user_agent_decorates_next_upgrade sample_parse sni_accepted 0
                    (world_of handshaking_stream) "libtorrent/2.0" success eq_refl)).
  - exact (proj1 (user_agent_decorates_next_upgrade sample_parse sni_accepted 0
                    (world_of (set_user_agent_field "old" handshaking_stream))
                    "" success eq_refl)).
Defined.

Lemma plain_attempt_reaches_open_witness :
  phase_of fresh_stream = idle_or_closed /\
  sample_parse "ws://tracker.example:8000/announce" =
    ("ws"%string, ""%string, "tracker.example"%string, 8000, "/announce"%string,
     success) /\
  failed success = false /\
  let w1 := run sample_parse sni_accepted 0
              [call_do_connect "ws://tracker.example:8000/announce";
               complete_resolve success [addr_A; addr_C];
               complete_tcp_connect success; complete_handshake success]
              (world_of fresh_stream) in
  seen w1 = [started (resolver_async_resolve "tracker.example");
             started (asio_async_connect
                        [mk_endpoint addr_C 8000; mk_endpoint addr_A 8000]);
             started (ws_async_handshake "tracker.example" "/announce" None)] /\
  posted w1 = [bind_connect_handler 7%nat success] /\
  phase_of (self w1) = open_phase /\
  m_stream (self w1) = stream_type.
Proof.
  do 3 (split; [reflexivity|]).
  exact (plain_attempt_reaches_open sample_parse sni_accepted 0 fresh_stream [] []
           "ws://tracker.example:8000/announce" "" "tracker.example" "/announce"
           8000 success success success success [addr_A; addr_C]
           eq_refl eq_refl eq_refl eq_refl eq_refl eq_refl).
Defined.

Lemma secure_attempt_reaches_open_witness :
  phase_of fresh_stream = idle_or_closed /\
  m_ssl_context fresh_stream = Some 1%nat /\
  sample_parse "wss://tracker.example" =
    ("wss"%string, ""%string, "tracker.example"%string, -1, ""%string, success) /\
  failed (sni_accepted "tracker.example") = false /\
  failed success = false /\
  let w1 := run sample_parse sni_accepted 0
              [call_do_connect "wss://tracker.example";
               complete_resolve success [addr_A];
               complete_tcp_connect success; complete_ssl_handshake success;
               complete_handshake success]
              (world_of fresh_stream) in
  seen w1 = [started (resolver_async_resolve "tracker.example");
             started (asio_async_connect [mk_endpoint addr_A 443]);
             started (ssl_set_host_name "tracker.example");
             started ssl_async_handshake;
             started (ws_async_handshake "tracker.example" "/" None)] /\
  posted w1 = [bind_connect_handler 7%nat success] /\
  phase_of (self w1) = open_phase /\
  m_stream (self w1) = ssl_stream_type 1%nat.
Proof.
  do 5 (split; [reflexivity|]).
  exact (secure_attempt_reaches_open sample_parse sni_accepted 0 fresh_stream [] []
           "wss://tracker.example" "" "tracker.example" "" (-1) 1%nat
           success success success success success [addr_A]
           eq_refl eq_refl eq_refl eq_refl eq_refl eq_refl eq_refl eq_refl eq_refl).
Defined.

Lemma close_does_not_stop_the_stages_witness :
  phase_of fresh_stream = idle_or_closed /\
  sample_parse "ws://tracker.example" =
    ("ws"%string, ""%string, "tracker.example"%string, -1, ""%string, success) /\
  failed success = false /\
  let w1 := run sample_parse sni_accepted 0
              [call_do_connect "ws://tracker.example"; call_close;
               complete_resolve success [addr_A];
               complete_tcp_connect success; complete_handshake success]
              (world_of fresh_stream) in
  seen w1 = [started (resolver_async_resolve "tracker.example");
             started (ws_async_close stream_type);
             started (asio_async_connect [mk_endpoint addr_A 443]);
             started (ws_async_handshake "tracker.example" "/" None)] /\
  posted w1 = [bind_connect_handler 7%nat operation_aborted] /\
  phase_of (self w1) = idle_or_closed.
Proof.
  do 3 (split; [reflexivity|]).
  exact (close_does_not_stop_the_stages sample_parse sni_accepted 0 fresh_stream [] []
           "ws://tracker.example" "" "tracker.example" "" (-1)
           success success success success [addr_A]
           eq_refl eq_refl eq_refl eq_refl eq_refl eq_refl).
Defined.

Lemma candidates_carry_the_narrowed_port_witness :
  phase_of fresh_stream = idle_or_closed /\
  wide_port_parse "ws://tracker.example:65616/announce" =
    ("ws"%string, ""%string, "tracker.example"%string, 65616, "/announce"%string,
     success) /\
  failed success = false /\
  let w1 := run wide_port_parse sni_accepted 0
              [call_do_connect "ws://tracker.example:65616/announce";
               complete_resolve success [addr_A; addr_B]]
              (world_of fresh_stream) in
  0 <= 80 < 65536 /\
  m_port (self w1) = 80 /\
  m_endpoints (self w1) = [mk_endpoint addr_A 80; mk_endpoint addr_B 80] /\
  seen w1 = [started (resolver_async_resolve "tracker.example");
             started (asio_async_connect
                        [mk_endpoint addr_B 80; mk_endpoint addr_A 80])] /\
  posted w1 = [].
Proof.
  do 3 (split; [reflexivity|]).
  exact (candidates_carry_the_narrowed_port wide_port_parse sni_accepted 0
           fresh_stream [] [] "ws://tracker.example:65616/announce"
           "ws" "" "tracker.example" "/announce" 65616 success success
           stream_type [addr_A; addr_B]
           eq_refl eq_refl eq_refl (or_introl (conj eq_refl eq_refl)) eq_refl).
Defined.

Lemma ended_attempt_can_be_retried_witness :
  phase_of (self (world_of handshaking_stream)) = connecting_phase /\
  ends_attempt (complete_tcp_connect (mk_error 111 system_category)) = true /\
  sample_parse "ws://tracker.example:8000/announce" =
    ("ws"%string, ""%string, "tracker.example"%string, 8000, "/announce"%string,
     success) /\
  failed success = false /\
  let w1 := step sample_parse sni_accepted 0
              (complete_tcp_connect (mk_error 111 system_category))
              (world_of handshaking_stream) in
  let w2 := step sample_parse sni_accepted 0
              (call_do_connect "ws://tracker.example:8000/announce") w1 in
  phase_of (self w1) = idle_or_closed /\
  phase_of (self w2) = connecting_phase /\
  posted w2 = posted w1 /\
  seen w2 = seen w1 ++ [started (resolver_async_resolve "tracker.example")] /\
  m_hostname (self w2) = "tracker.example"%string.
Proof.
  do 4 (split; [reflexivity|]).
  exact (ended_attempt_can_be_retried sample_parse sni_accepted 0
           (world_of handshaking_stream)
           (complete_tcp_connect (mk_error 111 system_category))
           "ws://tracker.example:8000/announce" "ws" "" "tracker.example"
           "/announce" 8000 success stream_type
           eq_refl eq_refl eq_refl eq_refl (or_introl (conj eq_refl eq_refl))).
Defined.

Lemma open_machine_forwards_and_stays_open_witness :
  phase_of (self (world_of open_stream)) = open_phase /\
  mk_error 104 system_category <> closed /\
  step sample_parse sni_accepted 0 (complete_write closed 0 4%nat)
    (world_of open_stream) =
    mk_world open_stream [bind_write_handler 4%nat closed 0] [] /\
  self (step sample_parse sni_accepted 0
          (complete_read (mk_error 104 system_category) 0 3%nat)
          (world_of open_stream)) = open_stream.
Proof.
  assert (Hne : mk_error 104 system_category <> closed) by discriminate.
  split; [reflexivity|]. split; [exact Hne|].
  destruct (open_machine_forwards_and_stays_open sample_parse sni_accepted 0
              (world_of open_stream) closed 0 4%nat eq_refl) as (Hw & _).
  destruct (open_machine_forwards_and_stays_open sample_parse sni_accepted 0
              (world_of open_stream) (mk_error 104 system_category) 0 3%nat eq_refl)
    as (_ & _ & _ & Hr).
  split; [exact Hw | exact (Hr Hne)].
Defined.

Lemma late_success_opens_a_restarted_machine_witness :
  phase_of (self (world_of handshaking_stream)) = connecting_phase /\
  sample_parse "ws://tracker.example" =
    ("ws"%string, ""%string, "tracker.example"%string, -1, ""%string, success) /\
  failed success = false /\
  let w1 := run sample_parse sni_accepted 0
              [call_close; call_do_connect "ws://tracker.example";
               complete_handshake success] (world_of handshaking_stream) in
  phase_of (self w1) = open_phase /\
  posted w1 = [bind_connect_handler 7%nat success] /\
  seen w1 = [started (ws_async_close stream_type);
             started (resolver_async_resolve "tracker.example")].
Proof.
  do 3 (split; [reflexivity|]).
  exact (late_success_opens_a_restarted_machine sample_parse sni_accepted 0
           (world_of handshaking_stream) "ws://tracker.example" ""
           "tracker.example" "" (-1) success success
           eq_refl eq_refl eq_refl eq_refl).
Defined.



Lemma sni_failure_posts_a_code_that_tests_as_success_witness :
  phase_of fresh_stream = idle_or_closed /\
  m_ssl_context fresh_stream = Some 1%nat /\
  sample_parse "wss://tracker.example" =
    ("wss"%string, ""%string, "tracker.example"%string, -1, ""%string, success) /\
  failed success = false /\
  failed (sni_refused "tracker.example") = true /\
  to_int 0 = 0 /\
  let w1 := run sample_parse sni_refused 0
              [call_do_connect "wss://tracker.example";
               complete_resolve success [addr_A];
               complete_tcp_connect success] (world_of fresh_stream) in
  exists reported : error_code,
    posted w1 = [bind_connect_handler 7%nat reported] /\
    reported = mk_error 0 ssl_category /\
    failed reported = false /\
    seen w1 = [started (resolver_async_resolve "tracker.example");
               started (asio_async_connect [mk_endpoint addr_A 443]);
               started (ssl_set_host_name "tracker.example")] /\
    phase_of (self w1) = idle_or_closed.
Proof.
  do 6 (split; [reflexivity|]).
  exact (sni_failure_posts_a_code_that_tests_as_success sample_parse sni_refused 0
           fresh_stream [] [] "wss://tracker.example" "" "tracker.example" "" (-1)
           1%nat success success success [addr_A]
           eq_refl eq_refl eq_refl eq_refl eq_refl eq_refl eq_refl eq_refl).
Defined.
